(** * Investment lifecycle of the Profyt server: plans routes, date
    utilities and the completion scheduler.

    A shallow embedding of [src/utils/dateUtils.js], of the handlers of
    [src/routes/plans.js] and of the scheduler sweep
    ([processCompletedInvestments]).

    Conventions of the embedding:
    - a JavaScript number is a [num]: a finite value carried as an exact
      rational, or one of the special values [NaN], [+Infinity],
      [-Infinity].  Finite arithmetic is exact (no binary rounding, no
      overflow) and the sign of zero is not tracked;
    - a valid [Date] is its time value, an integer count of milliseconds;
    - the document store and the mailer are explicit state: collections,
      a log of the accesses to them and an outbox of sent mails; what is
      written to the console is left out. *)

From Stdlib Require Import ZArith QArith Qround Lia Lqa Bool.
From Stdlib Require Import String Ascii DecimalString.
From Stdlib Require Import DecimalPos DecimalZ.
From stdpp Require Import base option list gmap sorting.

Local Open Scope Z_scope.

(** ** JavaScript numbers *)

Module Num.

Local Open Scope Q_scope.

Inductive num : Type :=
| Fin (q : Q)
| NaN
| PInf
| NInf.

Definition zero : num := Fin 0.
Definition hundred : num := Fin 100.

Definition Qlt_bool (a b : Q) : bool := negb (Qle_bool b a).

(** [x + y] *)
Definition add (x y : num) : num :=
  match x, y with
  | NaN, _ | _, NaN => NaN
  | Fin a, Fin b => Fin (a + b)
  | PInf, NInf | NInf, PInf => NaN
  | PInf, _ | _, PInf => PInf
  | NInf, _ | _, NInf => NInf
  end.

Definition neg (x : num) : num :=
  match x with
  | Fin a => Fin (- a)
  | NaN => NaN
  | PInf => NInf
  | NInf => PInf
  end.

(** [x - y] *)
Definition sub (x y : num) : num := add x (neg y).

(** Sign of a number: [Some true] positive, [Some false] negative,
    [None] zero or [NaN]. *)
Definition sign (x : num) : option bool :=
  match x with
  | Fin a => if Qeq_bool a 0 then None else Some (Qlt_bool 0 a)
  | NaN => None
  | PInf => Some true
  | NInf => Some false
  end.

Definition inf_of_sign (s : bool) : num := if s then PInf else NInf.

(** [x * y] *)
Definition mul (x y : num) : num :=
  match x, y with
  | NaN, _ | _, NaN => NaN
  | Fin a, Fin b => Fin (a * b)
  | _, _ =>
      match sign x, sign y with
      | Some s, Some t => inf_of_sign (Bool.eqb s t)
      | _, _ => NaN
      end
  end.

(** [x / y]; [0 / 0] and [Infinity / Infinity] are [NaN], a non-zero
    finite value over zero is an infinity. *)
Definition div (x y : num) : num :=
  match x, y with
  | NaN, _ | _, NaN => NaN
  | Fin a, Fin b =>
      if Qeq_bool b 0 then
        match sign x with
        | Some s => inf_of_sign s
        | None => NaN
        end
      else Fin (a / b)
  | Fin _, _ => Fin 0
  | PInf, Fin b => inf_of_sign (Qle_bool 0 b)
  | NInf, Fin b => inf_of_sign (negb (Qle_bool 0 b))
  | _, _ => NaN
  end.

(** [x < y]; every comparison with [NaN] is false. *)
Definition lt (x y : num) : bool :=
  match x, y with
  | NaN, _ | _, NaN => false
  | Fin a, Fin b => Qlt_bool a b
  | _, NInf | PInf, _ => false
  | NInf, _ | _, PInf => true
  end.

(** [x > y] *)
Definition gt (x y : num) : bool := lt y x.

(** [x <= y] *)
Definition le (x y : num) : bool :=
  match x, y with
  | NaN, _ | _, NaN => false
  | Fin a, Fin b => Qle_bool a b
  | NInf, _ | _, PInf => true
  | _, NInf | PInf, _ => false
  end.

(** [x >= y] *)
Definition ge (x y : num) : bool := le y x.

(** Truthiness of a number: every number but [0] and [NaN]. *)
Definition truthy (x : num) : bool :=
  match x with
  | Fin a => negb (Qeq_bool a 0)
  | NaN => false
  | PInf | NInf => true
  end.

(** [Math.round]: the nearest integer, a tie going up. *)
Definition round (x : num) : num :=
  match x with
  | Fin a => Fin (inject_Z (Qfloor (a + (1 # 2))))
  | _ => x
  end.

(** [Math.min] of two numbers. *)
Definition min (x y : num) : num :=
  match x, y with
  | NaN, _ | _, NaN => NaN
  | _, _ => if lt y x then y else x
  end.

(** [Number(x)] on a value that is a number already. *)
Definition Number (x : num) : num := x.

(** A time value or a difference of time values as a number. *)
Definition of_Z (z : Z) : num := Fin (inject_Z z).

(** Numeric equality of the model: rationals are compared by their
    value, not by their representation. *)
Definition eqv (x y : num) : Prop :=
  match x, y with
  | Fin a, Fin b => a == b
  | NaN, NaN | PInf, PInf | NInf, NInf => True
  | _, _ => False
  end.

End Num.
Export Num.

Declare Scope num_scope.
Delimit Scope num_scope with num.
Infix "==n" := Num.eqv (at level 70, no associativity) : num_scope.

(** ** [utils/dateUtils.js] *)

Module DateUtils.

Local Open Scope string_scope.
Local Open Scope Z_scope.

(** The whitespace class [\s] on one-byte characters, which is also what
    [trim] strips: tab, line feed, vertical tab, form feed, carriage
    return, space. *)
Definition is_space (c : ascii) : bool :=
  let n := nat_of_ascii c in
  ((9 <=? n) && (n <=? 13) || (n =? 32))%nat.

Definition is_digit (c : ascii) : bool :=
  let n := nat_of_ascii c in ((48 <=? n) && (n <=? 57))%nat.

Definition lower (c : ascii) : ascii :=
  let n := nat_of_ascii c in
  if ((65 <=? n) && (n <=? 90))%nat then ascii_of_nat (n + 32) else c.

Fixpoint toLowerCase (s : string) : string :=
  match s with
  | EmptyString => EmptyString
  | String c r => String (lower c) (toLowerCase r)
  end.

Fixpoint trimStart (s : string) : string :=
  match s with
  | String c r => if is_space c then trimStart r else s
  | EmptyString => EmptyString
  end.

Fixpoint rev_string (s acc : string) : string :=
  match s with
  | EmptyString => acc
  | String c r => rev_string r (String c acc)
  end.

Definition trim (s : string) : string :=
  rev_string (trimStart (rev_string (trimStart s) EmptyString)) EmptyString.

(** The capture [(\d+)] read as [parseInt] reads it: the longest prefix
    of decimal digits and its value, with the rest of the string. *)
Fixpoint digits (s : string) (acc : Z) (seen : bool) : option Z * string :=
  match s with
  | String c r =>
      if is_digit c
      then digits r (10 * acc + Z.of_nat (nat_of_ascii c - 48)) true
      else (if seen then Some acc else None, s)
  | EmptyString => (if seen then Some acc else None, s)
  end.

Definition minute_ms : Z := 60 * 1000.
Definition hour_ms : Z := 60 * 60 * 1000.
Definition day_ms : Z := 24 * 60 * 60 * 1000.

(** Milliseconds of one unit, for the twelve unit words of the pattern;
    a month is 30.44 days and a year 365.25 days. *)
Definition unit_ms (u : string) : option Q :=
  if (String.eqb u "minute" || String.eqb u "minutes")%bool
  then Some (inject_Z minute_ms)
  else if (String.eqb u "hour" || String.eqb u "hours")%bool
  then Some (inject_Z hour_ms)
  else if (String.eqb u "day" || String.eqb u "days")%bool
  then Some (inject_Z day_ms)
  else if (String.eqb u "week" || String.eqb u "weeks")%bool
  then Some (7 * inject_Z day_ms)%Q
  else if (String.eqb u "month" || String.eqb u "months")%bool
  then Some ((3044 # 100) * inject_Z day_ms)%Q
  else if (String.eqb u "year" || String.eqb u "years")%bool
  then Some ((36525 # 100) * inject_Z day_ms)%Q
  else None.

(** [parseDurationToMilliseconds]: [None] is the thrown [Error]. *)
Definition parseDurationToMilliseconds (durationString : string) : option Q :=
  let duration := trim (toLowerCase durationString) in
  match digits duration 0 false with
  | (Some amount, String c rest) =>
      if is_space c then
        match unit_ms (trimStart rest) with
        | Some ms => Some (inject_Z amount * ms)%Q
        | None => None
        end
      else None
  | _ => None
  end.

(** The integer part of a time value, as the [Date] constructor takes it. *)
Definition Qtruncate (x : Q) : Z := Z.quot (Qnum x) (Zpos (Qden x)).

(** [calculateEndDate] *)
Definition calculateEndDate (startDate : Z) (durationString : string) : option Z :=
  match parseDurationToMilliseconds durationString with
  | Some durationMs => Some (Qtruncate (inject_Z startDate + durationMs))
  | None => None
  end.

(** [calculateProgressiveInterest] *)
Definition calculateProgressiveInterest
    (totalInterest : num) (startDate endDate checkDate : Z) : num :=
  let totalDuration := endDate - startDate in
  let elapsedDuration := Z.min (checkDate - startDate) totalDuration in
  if elapsedDuration <=? 0 then Num.zero
  else if elapsedDuration >=? totalDuration then totalInterest
  else
    let progress := Num.div (Num.of_Z elapsedDuration) (Num.of_Z totalDuration) in
    Num.div (Num.round (Num.mul (Num.mul totalInterest progress) Num.hundred))
            Num.hundred.

(** [isInvestmentDue] *)
Definition isInvestmentDue (endDate currentDate : Z) : bool :=
  currentDate >=? endDate.

(** A non-negative integer in a template literal. *)
Definition show (n : Z) : string := NilZero.string_of_int (Z.to_int n).

Definition plural (n : Z) : string := if n >? 1 then "s" else "".

(** [formatTimeRemaining] *)
Definition formatTimeRemaining (endDate currentDate : Z) : string :=
  let timeRemaining := endDate - currentDate in
  if timeRemaining <=? 0 then "Investment completed"
  else
    let days := timeRemaining / day_ms in
    let hours := (timeRemaining mod day_ms) / hour_ms in
    let minutes := (timeRemaining mod hour_ms) / minute_ms in
    if days >? 0 then
      show days ++ " day" ++ plural days ++ ", " ++
      show hours ++ " hour" ++ plural hours
    else if hours >? 0 then
      show hours ++ " hour" ++ plural hours ++ ", " ++
      show minutes ++ " minute" ++ plural minutes
    else
      show minutes ++ " minute" ++ plural minutes.

End DateUtils.
Export DateUtils.

(** ** Documents and collections *)

Module Store.

Local Open Scope string_scope.

(** Modelled from the spec: [models/user.js] is absent; a user document
    holds the two balances and the contact fields the handlers read. *)
Record User : Type := mkUser {
  email : string;
  fullName : string;
  username : string;
  deposit : num;
  interest : num
}.

(** Modelled from the spec: [models/plan.js] is absent; a plan document
    holds the fields the plan handlers write, and the active flag. *)
Record Plan : Type := mkPlan {
  name : string;
  description : string;
  roi : num;
  minAmount : num;
  duration : string;
  features : list string;
  isActive : bool
}.

(** The plan snapshot embedded in an investment ([planData]). *)
Record PlanData : Type := mkPlanData {
  plan : string;
  pd_duration : string;
  pd_interest : num;
  startDate : Z;
  endDate : Z;
  currentInterest : num
}.

(** The denormalised owner of a transaction ([user]). *)
Record Owner : Type := mkOwner {
  o_id : nat;
  o_email : string;
  o_name : string
}.

(** Modelled from the spec: [models/transaction.js] is absent; a
    transaction document holds the fields the handlers and the scheduler
    read and write.  Every document carries a whole plan snapshot, so the
    scheduler's condition that [planData.endDate] exists holds for each. *)
Record Transaction : Type := mkTransaction {
  type : string;
  user : Owner;
  status : string;
  amount : num;
  planData : PlanData;
  date : Z
}.

(** Modelled from the spec: [utils/mailer.js] is absent; a call of one
    of its four operations is recorded with its arguments. *)
Inductive Mail : Type :=
| investmentApproved (to fullName : string) (amount : num) (date : Z) (plan : string)
| investmentRejected (to fullName : string) (amount : num) (date : Z) (plan : string)
| investmentCompleted (to fullName : string) (amount : num) (date : Z) (plan : string)
| alertAdmin (from : string) (amount : num) (date : Z) (kind : string).

(** Accesses to the document store, in the order they happen. *)
Inductive Access : Type :=
| FindPlan (id : nat)
| FindPlanByName (name : string)
| SavePlan (id : nat)
| FindUser (id : nat)
| SaveUser (id : nat)
| FindTransaction (id : nat)
| FindActiveInvestments
| SaveTransaction (id : nat).

(** The state of the process: the three collections (a plan and a
    transaction are identified by their position, a user by a key), the
    mails sent, the store accesses made, and the scheduler's
    [isProcessing] flag. *)
Record State : Type := mkState {
  plans : list Plan;
  users : gmap nat User;
  transactions : list Transaction;
  outbox : list Mail;
  accesses : list Access;
  isProcessing : bool
}.

Definition set_deposit (d : num) (u : User) : User :=
  mkUser (email u) (fullName u) (username u) d (interest u).
Definition set_interest (i : num) (u : User) : User :=
  mkUser (email u) (fullName u) (username u) (deposit u) i.

Definition set_isActive (b : bool) (p : Plan) : Plan :=
  mkPlan (name p) (description p) (roi p) (minAmount p) (duration p)
         (features p) b.

Definition set_status (s : string) (t : Transaction) : Transaction :=
  mkTransaction (type t) (user t) s (amount t) (planData t) (date t).
Definition set_amount (a : num) (t : Transaction) : Transaction :=
  mkTransaction (type t) (user t) (status t) a (planData t) (date t).
Definition set_currentInterest (c : num) (t : Transaction) : Transaction :=
  let pd := planData t in
  mkTransaction (type t) (user t) (status t) (amount t)
    (mkPlanData (plan pd) (pd_duration pd) (pd_interest pd) (startDate pd)
                (endDate pd) c)
    (date t).

Definition set_plans (ps : list Plan) (s : State) : State :=
  mkState ps (users s) (transactions s) (outbox s) (accesses s) (isProcessing s).
Definition set_users (us : gmap nat User) (s : State) : State :=
  mkState (plans s) us (transactions s) (outbox s) (accesses s) (isProcessing s).
Definition set_transactions (ts : list Transaction) (s : State) : State :=
  mkState (plans s) (users s) ts (outbox s) (accesses s) (isProcessing s).
Definition set_outbox (ms : list Mail) (s : State) : State :=
  mkState (plans s) (users s) (transactions s) ms (accesses s) (isProcessing s).
Definition set_accesses (l : list Access) (s : State) : State :=
  mkState (plans s) (users s) (transactions s) (outbox s) l (isProcessing s).
Definition set_isProcessing (b : bool) (s : State) : State :=
  mkState (plans s) (users s) (transactions s) (outbox s) (accesses s) b.

End Store.
Export Store.

(** ** Asynchronous code as a state monad with early return and errors *)

Module Async.

(** How a computation ends: with a value, with the early [return] of the
    enclosing function, or with a thrown error. *)
Inductive outcome (R A : Type) : Type :=
| Val (a : A)
| Return (r : R)
| Throw (message : string).
Arguments Val {R A} a.
Arguments Return {R A} r.
Arguments Throw {R A} message.

Definition M (R A : Type) : Type := State -> outcome R A * State.

Definition ret {R A} (a : A) : M R A := fun s => (Val a, s).

Definition bind {R A B} (m : M R A) (k : A -> M R B) : M R B :=
  fun s =>
    match m s with
    | (Val a, s') => k a s'
    | (Return r, s') => (Return r, s')
    | (Throw e, s') => (Throw e, s')
    end.

Definition return_ {R A} (r : R) : M R A := fun s => (Return r, s).
Definition throw {R A} (e : string) : M R A := fun s => (Throw e, s).
Definition gets {R A} (f : State -> A) : M R A := fun s => (Val (f s), s).
Definition modify {R} (f : State -> State) : M R unit := fun s => (Val tt, f s).

End Async.
Export Async.

Declare Scope async_scope.
Delimit Scope async_scope with async.
Notation "x <- m ;; k" := (bind m (fun x => k))
  (at level 100, m at next level, right associativity) : async_scope.
Notation "m ;; k" := (bind m (fun _ => k))
  (at level 100, right associativity) : async_scope.

(** ** The collaborators: the models' queries and the mailer *)

Module Db.

Local Open Scope async_scope.

Definition access {R} (a : Access) : M R unit :=
  modify (fun s => set_accesses (accesses s ++ [a]) s).

(** [Plan.findById] *)
Definition Plan_findById {R} (id : nat) : M R (option Plan) :=
  access (FindPlan id) ;; gets (fun s => plans s !! id).

(** [User.findById] *)
Definition User_findById {R} (id : nat) : M R (option User) :=
  access (FindUser id) ;; gets (fun s => users s !! id).

(** [user.save()] *)
Definition User_save {R} (id : nat) (u : User) : M R unit :=
  access (SaveUser id) ;; modify (fun s => set_users (<[id := u]> (users s)) s).

(** [Transaction.findById] *)
Definition Transaction_findById {R} (id : nat) : M R (option Transaction) :=
  access (FindTransaction id) ;; gets (fun s => transactions s !! id).

(** [transaction.save()] of a document read from the collection. *)
Definition Transaction_save {R} (id : nat) (t : Transaction) : M R unit :=
  access (SaveTransaction id) ;;
  modify (fun s => set_transactions (<[id := t]> (transactions s)) s).

(** [transaction.save()] of a new document; its [_id] is returned. *)
Definition Transaction_create {R} (t : Transaction) : M R nat :=
  id <- gets (fun s => length (transactions s)) ;;
  access (SaveTransaction id) ;;
  modify (fun s => set_transactions (transactions s ++ [t]) s) ;;
  ret id.

(** A call of the mailer. *)
Definition send {R} (m : Mail) : M R unit :=
  modify (fun s => set_outbox (outbox s ++ [m]) s).

End Db.
Export Db.

(** ** [routes/plans.js] *)

Module Routes.

Local Open Scope string_scope.
Local Open Scope async_scope.

(** The projection returned by [GET /investment/:id/progress]. *)
Record Progress : Type := mkProgress {
  investmentId : nat;
  p_status : string;
  totalAmount : num;
  totalInterest : num;
  p_currentInterest : num;
  progress : num;
  timeRemaining : string;
  p_startDate : Z;
  p_endDate : Z;
  isCompleted : bool
}.

(** One element of the list returned by [GET /investments/active]:
    the document with the three computed fields. *)
Record WithProgress : Type := mkWithProgress {
  doc : Transaction;
  w_currentInterest : num;
  isDue : bool;
  w_progress : num
}.

Inductive Payload : Type :=
| Message (message : string)
| MessageNum (message : string) (n : num)
| PlanDoc (p : Plan)
| Activated (remainingBalance : num) (id : nat) (status : string)
            (startDate endDate timeRemaining : Z)
| Updated (status : string) (t : Transaction)
| ProgressOf (p : Progress)
| ActiveInvestments (investments : list WithProgress) (total readyToComplete : nat).

Record Response : Type := mkResponse { code : nat; payload : Payload }.

(** [try { ... } catch (error) { res.status(500).json(...) }] around a
    handler's body. *)
Definition handler (body : M Response Response) (s : State) : Response * State :=
  match body s with
  | (Val r, s') | (Return r, s') => (r, s')
  | (Throw e, s') => (mkResponse 500 (Message e), s')
  end.

(** *** [POST /] : create a plan *)

(** The body of the request; [None] is a field that is not there. *)
Record PlanRequest : Type := mkPlanRequest {
  q_name : option string;
  q_description : option string;
  q_roi : option num;
  q_minAmount : option num;
  q_duration : option string;
  q_features : option (list string)
}.

(** Truthiness of a string field, of a number field, of an array field. *)
Definition truthy_string (o : option string) : bool :=
  match o with Some s => negb (String.eqb s "") | None => false end.
Definition truthy_num (o : option num) : bool :=
  match o with Some n => Num.truthy n | None => false end.
Definition truthy_array {A} (o : option (list A)) : bool :=
  match o with Some _ => true | None => false end.

(** [Plan.findOne] with the anchored, case-insensitive pattern made of
    the name: a plan whose name is the same up to case. *)
Definition Plan_findOne_byName (n : string) : M Response (option Plan) :=
  access (FindPlanByName n) ;;
  gets (fun s =>
    head (filter (fun p => String.eqb (toLowerCase (name p)) (toLowerCase n) = true)
                 (plans s))).

(** [plan.save()] of a new plan; the document is active. *)
Definition Plan_create (p : Plan) : M Response Plan :=
  id <- gets (fun s => length (plans s)) ;;
  access (SavePlan id) ;;
  modify (fun s => set_plans (plans s ++ [p]) s) ;;
  ret p.

Definition createPlan_body (req : PlanRequest) : M Response Response :=
  if negb (truthy_string (q_name req)) || negb (truthy_string (q_description req))
     || negb (truthy_num (q_roi req)) || negb (truthy_num (q_minAmount req))
     || negb (truthy_string (q_duration req)) || negb (truthy_array (q_features req))
  then return_ (mkResponse 400 (Message "All fields are required"))
  else
    match q_name req, q_description req, q_roi req, q_minAmount req,
          q_duration req, q_features req with
    | Some name, Some description, Some roi, Some minAmount,
      Some duration, Some features =>
        if Num.lt roi (Fin 0) || Num.gt roi (Fin 1000)
        then return_ (mkResponse 400 (Message "ROI must be between 0 and 1000"))
        else if Num.lt minAmount (Fin 0)
        then return_ (mkResponse 400 (Message "Minimum amount must be positive"))
        else if (length features =? 0)%nat
        then return_ (mkResponse 400 (Message "At least one feature is required"))
        else
          existingPlan <- Plan_findOne_byName name ;;
          match existingPlan with
          | Some _ => return_ (mkResponse 400 (Message "Plan name already exists"))
          | None =>
              let plan :=
                mkPlan name description roi minAmount duration
                  (filter (fun f => String.eqb (trim f) "" = false) features) true in
              savedPlan <- Plan_create plan ;;
              ret (mkResponse 201 (PlanDoc savedPlan))
          end
    | _, _, _, _, _, _ =>
        return_ (mkResponse 400 (Message "All fields are required"))
    end.

Definition createPlan (req : PlanRequest) : State -> Response * State :=
  handler (createPlan_body req).

(** *** [POST /invest] : create an investment *)

Record InvestRequest : Type := mkInvestRequest {
  planId : nat;
  r_amount : num;
  userId : nat;
  r_interest : option num
}.

(** [interest || d] *)
Definition or_default (o : option num) (d : num) : num :=
  match o with
  | Some n => if Num.truthy n then n else d
  | None => d
  end.

(** The body of the handler at the time [now] of [new Date()]. *)
Definition invest_body (req : InvestRequest) (now : Z) : M Response Response :=
  let amount := r_amount req in
  plan <- Plan_findById (planId req) ;;
  match plan with
  | None => return_ (mkResponse 404 (Message "Plan not found"))
  | Some plan =>
      if negb (isActive plan)
      then return_ (mkResponse 404 (Message "Plan not found"))
      else if Num.lt amount (minAmount plan)
      then return_ (mkResponse 400 (MessageNum "Minimum amount is $" (minAmount plan)))
      else
        user <- User_findById (userId req) ;;
        match user with
        | None => return_ (mkResponse 404 (Message "User not found"))
        | Some user =>
            if Num.lt (deposit user) amount
            then return_ (mkResponse 400
                   (MessageNum "Insufficient balance. Available: $" (deposit user)))
            else
              let user := set_deposit (Num.sub (deposit user) amount) user in
              User_save (userId req) user ;;
              let startDate := now in
              match calculateEndDate startDate (duration plan) with
              | None => throw ("Invalid duration format: " ++ duration plan)
              | Some endDate =>
                  let totalInterest :=
                    or_default (r_interest req)
                      (Num.div (Num.mul amount (roi plan)) Num.hundred) in
                  (* the [date] of the document is that of its creation *)
                  let transaction :=
                    mkTransaction "investment"
                      (mkOwner (userId req) (email user) (username user))
                      "active" amount
                      (mkPlanData (name plan) (duration plan) totalInterest
                                  startDate endDate Num.zero)
                      now in
                  id <- Transaction_create transaction ;;
                  send (investmentApproved (email user) (fullName user) amount
                          (date transaction) (name plan)) ;;
                  send (alertAdmin (email user) amount (date transaction) "investment") ;;
                  ret (mkResponse 201
                         (Activated (deposit user) id "active" startDate endDate
                                    (endDate - startDate)))
              end
        end
  end.

Definition invest (req : InvestRequest) (now : Z) : State -> Response * State :=
  handler (invest_body req now).

(** *** [PUT /investment/:id] : update the status of an investment *)

Definition updateInvestment_body (id : nat) (status : string) : M Response Response :=
  transaction <- Transaction_findById id ;;
  match transaction with
  | None => return_ (mkResponse 404 (Message "Investment not found"))
  | Some transaction =>
      if negb (String.eqb (type transaction) "investment")
      then return_ (mkResponse 404 (Message "Investment not found"))
      else
        let uid := o_id (Store.user transaction) in
        user <- User_findById uid ;;
        match user with
        | None => return_ (mkResponse 404 (Message "User not found"))
        | Some user =>
            let transaction := set_status status transaction in
            ut <- (if String.eqb status "rejected" then
                     let user := set_deposit
                                   (Num.add (deposit user) (Number (amount transaction)))
                                   user in
                     let transaction := set_amount Num.zero transaction in
                     User_save uid user ;;
                     send (investmentRejected (email user) (fullName user)
                             (amount transaction) (date transaction)
                             (plan (planData transaction))) ;;
                     ret (user, transaction)
                   else ret (user, transaction)) ;;
            let '(user, transaction) := ut in
            (if String.eqb status "approved" then
               send (investmentApproved (email user) (fullName user)
                       (amount transaction) (date transaction)
                       (plan (planData transaction)))
             else ret tt) ;;
            user <- (if String.eqb status "completed" then
                       let user := set_deposit
                                     (Num.add (deposit user) (Number (amount transaction)))
                                     user in
                       let user := set_interest
                                     (Num.add (interest user)
                                        (Number (pd_interest (planData transaction))))
                                     user in
                       User_save uid user ;;
                       send (investmentCompleted (email user) (fullName user)
                               (amount transaction) (date transaction)
                               (plan (planData transaction))) ;;
                       ret user
                     else ret user) ;;
            Transaction_save id transaction ;;
            ret (mkResponse 200 (Updated status transaction))
        end
  end.

Definition updateInvestment (id : nat) (status : string) : State -> Response * State :=
  handler (updateInvestment_body id status).

(** *** The progress projections *)

(** [Math.min((currentInterest / totalInterest) * 100, 100)] *)
Definition progress_percent (currentInterest totalInterest : num) : num :=
  Num.min (Num.mul (Num.div currentInterest totalInterest) Num.hundred) Num.hundred.

(** [GET /investment/:id/progress] at the time [currentDate]. *)
Definition investmentProgress_body (id : nat) (currentDate : Z) : M Response Response :=
  transaction <- Transaction_findById id ;;
  match transaction with
  | None => return_ (mkResponse 404 (Message "Investment not found"))
  | Some transaction =>
      if negb (String.eqb (type transaction) "investment")
      then return_ (mkResponse 404 (Message "Investment not found"))
      else
        let startDate := startDate (planData transaction) in
        let endDate := endDate (planData transaction) in
        let totalInterest := pd_interest (planData transaction) in
        let currentInterest :=
          calculateProgressiveInterest totalInterest startDate endDate currentDate in
        let timeRemaining := formatTimeRemaining endDate currentDate in
        let isCompleted := isInvestmentDue endDate currentDate in
        ret (mkResponse 200 (ProgressOf
          (mkProgress id
             (if isCompleted then "ready_to_complete" else status transaction)
             (amount transaction) totalInterest currentInterest
             (progress_percent currentInterest totalInterest)
             timeRemaining startDate endDate isCompleted)))
  end.

Definition investmentProgress (id : nat) (currentDate : Z) : State -> Response * State :=
  handler (investmentProgress_body id currentDate).

(** The callback of [activeInvestments.map]. *)
Definition withProgress (currentDate : Z) (investment : Transaction) : WithProgress :=
  let startDate := startDate (planData investment) in
  let endDate := endDate (planData investment) in
  let totalInterest := pd_interest (planData investment) in
  let currentInterest :=
    calculateProgressiveInterest totalInterest startDate endDate currentDate in
  let isDue := isInvestmentDue endDate currentDate in
  mkWithProgress investment currentInterest isDue
    (progress_percent currentInterest totalInterest).

Definition is_active_investment (t : Transaction) : bool :=
  String.eqb (type t) "investment" && String.eqb (status t) "active".

(** [GET /investments/active] at the time [currentDate]. *)
Definition activeInvestments_body (currentDate : Z) : M Response Response :=
  access FindActiveInvestments ;;
  activeInvestments <- gets (fun s =>
    filter (fun t => is_active_investment t = true) (transactions s)) ;;
  let investmentsWithProgress := map (withProgress currentDate) activeInvestments in
  ret (mkResponse 200
         (ActiveInvestments investmentsWithProgress
            (length activeInvestments)
            (length (filter (fun inv => isDue inv = true) investmentsWithProgress)))).

Definition activeInvestments (currentDate : Z) : State -> Response * State :=
  handler (activeInvestments_body currentDate).

End Routes.
Export Routes.

(** ** The completion scheduler ([utils/investmentAutomation.js]) *)

Module Automation.

Local Open Scope string_scope.
Local Open Scope async_scope.

(** What may go wrong during one sweep, chosen from outside: the query
    of the active investments, the lookup of the owner of a record, the
    two saves of a record and its owner, and the mail of a record. *)
Record Faults : Type := mkFaults {
  find_fails : bool;
  findUser_fails : nat -> bool;
  saveUser_fails : nat -> bool;
  saveTransaction_fails : nat -> bool;
  mail_fails : nat -> bool
}.

Definition no_faults : Faults :=
  mkFaults false (fun _ => false) (fun _ => false) (fun _ => false) (fun _ => false).

(** An awaited call that rejects when [fails] is set. *)
Definition rejecting {R A} (fails : bool) (e : string) (m : M R A) : M R A :=
  if fails then throw e else m.

(** [try { m } catch (error) { h error }] *)
Definition try_catch {R A} (m : M R A) (h : string -> M R A) : M R A :=
  fun s =>
    match m s with
    | (Throw e, s') => h e s'
    | r => r
    end.

(** [try { m } finally { c }] *)
Definition try_finally {R A} (m : M R A) (c : State -> State) : M R A :=
  fun s => let '(o, s') := m s in (o, c s').

(** One turn of a [for ... of] loop: [continue] is the early return of
    the turn. *)
Definition turn {R} (m : M unit unit) : M R unit :=
  fun s =>
    match m s with
    | (Val _, s') | (Return _, s') => (Val tt, s')
    | (Throw e, s') => (Throw e, s')
    end.

Fixpoint for_of {R A} (l : list A) (body : A -> M unit unit) : M R unit :=
  match l with
  | [] => ret tt
  | x :: r => turn (body x) ;; for_of r body
  end.

(** The documents that [Transaction.find] selects, each with its [_id]. *)
Definition active_snapshot (s : State) : list (nat * Transaction) :=
  filter (fun it => is_active_investment (snd it) = true)
         (imap (fun i t => (i, t)) (transactions s)).

(** [Transaction.find] of the active investments. *)
Definition Transaction_find_active {R} (f : Faults) : M R (list (nat * Transaction)) :=
  access FindActiveInvestments ;;
  rejecting (find_fails f) "find failed" (gets active_snapshot).

(** [User.findById] of the owner of the record [id]. *)
Definition User_findById_for {R} (f : Faults) (id uid : nat) : M R (option User) :=
  access (FindUser uid) ;;
  rejecting (findUser_fails f id) "findById failed" (gets (fun s => users s !! uid)).

(** [Promise.all([user.save(), investment.save()])]: both saves are
    started; the promise rejects when one of them does. *)
Definition save_both {R} (f : Faults) (id uid : nat) (user : User)
    (investment : Transaction) : M R unit :=
  (if saveUser_fails f id then access (SaveUser uid) else User_save uid user) ;;
  (if saveTransaction_fails f id then access (SaveTransaction id)
   else Transaction_save id investment) ;;
  if saveUser_fails f id || saveTransaction_fails f id
  then throw "save failed" else ret tt.

(** The body of the loop, inside its [try]. *)
Definition complete_if_due (f : Faults) (currentDate : Z)
    (it : nat * Transaction) : M unit unit :=
  let '(id, investment) := it in
  let endDate := endDate (planData investment) in
  if isInvestmentDue endDate currentDate then
    let uid := o_id (Store.user investment) in
    user <- User_findById_for f id uid ;;
    match user with
    | None => return_ tt
    | Some user =>
        let user := set_deposit (Num.add (deposit user) (Number (amount investment)))
                      user in
        let user := set_interest
                      (Num.add (interest user)
                         (Number (pd_interest (planData investment))))
                      user in
        let investment := set_status "completed" investment in
        let investment :=
          set_currentInterest (pd_interest (planData investment)) investment in
        save_both f id uid user investment ;;
        rejecting (mail_fails f id) "mail failed"
          (send (investmentCompleted (email user) (fullName user)
                   (amount investment) (date investment)
                   (plan (planData investment))))
    end
  else ret tt.

(** The [try] inside the loop: an error of the turn is logged and the
    loop goes on. *)
Definition guarded_turn (f : Faults) (currentDate : Z) (it : nat * Transaction)
    : M unit unit :=
  try_catch (complete_if_due f currentDate it) (fun _ => ret tt).

(** The body of the outer [try]. *)
Definition sweep (f : Faults) (currentDate : Z) : M unit unit :=
  activeInvestments <- Transaction_find_active f ;;
  for_of activeInvestments (guarded_turn f currentDate).

(** [processCompletedInvestments], with [new Date()] read as
    [currentDate]. *)
Definition processCompletedInvestments_body (f : Faults) (currentDate : Z)
    : M unit unit :=
  busy <- gets isProcessing ;;
  if (busy : bool) then return_ tt
  else
    modify (set_isProcessing true) ;;
    try_finally
      (try_catch (sweep f currentDate) (fun _ => ret tt))
      (set_isProcessing false).

Definition processCompletedInvestments (f : Faults) (currentDate : Z)
    (s : State) : State :=
  snd (processCompletedInvestments_body f currentDate s).

(** [manualInvestmentCheck], and through it
    [POST /investments/complete-automation]. *)
Definition manualInvestmentCheck := processCompletedInvestments.

Definition completeAutomation (f : Faults) (currentDate : Z) (s : State)
    : Response * State :=
  (mkResponse 200 (Message "Investment completion check triggered successfully"),
   manualInvestmentCheck f currentDate s).

End Automation.
Export Automation.

(** ** Invocations of the sweep that overlap *)

Module Interleaving.

(** Where an invocation of [processCompletedInvestments] stands: not
    yet at its first statement, awaiting the query, in the loop with the
    documents still to visit, or returned. *)
Inductive Phase : Type :=
| Starting
| Querying
| Looping (todo : list (nat * Transaction))
| Returned.

(** An invocation: what will go wrong in it, its date, its phase. *)
Record Task : Type := mkTask {
  faults : Faults;
  currentDate : Z;
  phase : Phase
}.

Definition at_phase (p : Phase) (t : Task) : Task :=
  mkTask (faults t) (currentDate t) p.

(** One stretch of an invocation, run without being interrupted: the
    test of the flag and its setting; the query, with the [catch] and the
    [finally] when it rejects; one turn of the loop; the [finally] after
    the loop. *)
Definition task_step (t : Task) (s : State) : Task * State :=
  match phase t with
  | Starting =>
      if isProcessing s then (at_phase Returned t, s)
      else (at_phase Querying t, set_isProcessing true s)
  | Querying =>
      match Transaction_find_active (R := unit) (faults t) s with
      | (Val l, s') => (at_phase (Looping l) t, s')
      | (_, s') => (at_phase Returned t, set_isProcessing false s')
      end
  | Looping [] => (at_phase Returned t, set_isProcessing false s)
  | Looping (it :: todo) =>
      (at_phase (Looping todo) t,
       snd (turn (R := unit) (guarded_turn (faults t) (currentDate t) it) s))
  | Returned => (t, s)
  end.

(** An invocation that holds the flag. *)
Definition in_progress (t : Task) : bool :=
  match phase t with
  | Querying | Looping _ => true
  | Starting | Returned => false
  end.

(** The process: the state and the invocations made so far. *)
Definition Config : Type := State * list Task.

(** What may happen next: an invocation is made (by the timer or by the
    manual trigger), an invocation runs its next stretch, or a request
    handler runs, which leaves the flag alone. *)
Inductive next : Config -> Config -> Prop :=
| next_invoke (s : State) (ts : list Task) (f : Faults) (now : Z) :
    next (s, ts) (s, ts ++ [mkTask f now Starting])
| next_stretch (s s' : State) (ts : list Task) (i : nat) (t t' : Task) :
    ts !! i = Some t ->
    task_step t s = (t', s') ->
    next (s, ts) (s', <[i := t']> ts)
| next_handler (s s' : State) (ts : list Task) :
    isProcessing s' = isProcessing s ->
    next (s, ts) (s', ts).

Inductive reachable (c0 : Config) : Config -> Prop :=
| reachable_here : reachable c0 c0
| reachable_next (c c' : Config) : reachable c0 c -> next c c' -> reachable c0 c'.

(** An invocation run alone for [n] stretches. *)
Fixpoint stretches (n : nat) (t : Task) (s : State) : Task * State :=
  match n with
  | O => (t, s)
  | S n => let '(t', s') := task_step t s in stretches n t' s'
  end.

End Interleaving.
Export Interleaving.

(** ** The life of a record: creations, transitions and sweeps *)

Module Lifecycle.

(** One operation on the store. *)
Inductive Op : Type :=
| Create (req : InvestRequest) (now : Z)
| Transition (id : nat) (status : string)
| Sweep (f : Faults) (now : Z).

Definition perform (o : Op) (s : State) : State :=
  match o with
  | Create req now => snd (invest req now s)
  | Transition id status => snd (updateInvestment id status s)
  | Sweep f now => processCompletedInvestments f now s
  end.

Fixpoint run (ops : list Op) (s : State) : State :=
  match ops with
  | [] => s
  | o :: ops => run ops (perform o s)
  end.

(** The stored accrued interest is at most the total interest. *)
Definition bounded (t : Transaction) : Prop :=
  Num.le (currentInterest (planData t)) (pd_interest (planData t)) = true.

(** A later version of a record: the same total interest, and an accrued
    interest that was kept or was set to the total interest. *)
Definition evolves (t t' : Transaction) : Prop :=
  pd_interest (planData t') = pd_interest (planData t) /\
  (currentInterest (planData t') = currentInterest (planData t) \/
   currentInterest (planData t') = pd_interest (planData t)).

(** A later version of the collection: every record is still there, in a
    later version. *)
Definition advances (l l' : list Transaction) : Prop :=
  forall i t, l !! i = Some t -> exists t', l' !! i = Some t' /\ evolves t t'.

(** A record that is at its creation value or complete. *)
Definition zero_or_total (t : Transaction) : Prop :=
  currentInterest (planData t) = Fin 0 \/
  currentInterest (planData t) = pd_interest (planData t).

(** The total interest that a creation would store is not negative. *)
Definition nonneg_interest (ps : list Plan) (o : Op) : Prop :=
  match o with
  | Create req _ =>
      forall p, ps !! planId req = Some p ->
        Num.le (Fin 0)
          (or_default (r_interest req)
             (Num.div (Num.mul (r_amount req) (roi p)) Num.hundred)) = true
  | _ => True
  end.

(** The record the scheduler saves for the document [inv] it read. *)
Definition completed (inv : Transaction) : Transaction :=
  set_currentInterest (pd_interest (planData inv)) (set_status "completed" inv).

End Lifecycle.
Export Lifecycle.

(** ** Notions used to state the properties *)

Module Specs.

Local Open Scope string_scope.

(** A count with its unit, the unit in the plural exactly when the count
    is above one. *)
Definition quantity (n : Z) (unit : string) : string :=
  (show n ++ " " ++ unit ++ (if Z_gt_dec n 1 then "s" else ""))%string.

(** A rational rounded to two decimals, a tie going up. *)
Definition round_cents (x : Q) : Q :=
  (inject_Z (Qfloor (x * 100 + (1 # 2))) / 100)%Q.

(** An amount that is a whole number of cents. *)
Definition whole_cents (t : Q) : Prop := exists c : Z, (t == inject_Z c / 100)%Q.

(** The share of the term that has elapsed at [n]. *)
Definition elapsed_share (s e n : Z) : Q :=
  (inject_Z (n - s) / inject_Z (e - s))%Q.

(** The record that a successful creation stores. *)
Definition created (req : InvestRequest) (now endDate : Z) (p : Plan) (u : User)
    : Transaction :=
  mkTransaction "investment" (mkOwner (userId req) (email u) (username u))
    "active" (r_amount req)
    (mkPlanData (name p) (duration p)
       (or_default (r_interest req)
          (Num.div (Num.mul (r_amount req) (roi p)) Num.hundred))
       now endDate (Fin 0))
    now.

(** The state in which the scheduler's query is answered. *)
Definition queried (s : State) : State :=
  set_accesses (accesses s ++ [FindActiveInvestments]) (set_isProcessing true s).

(** What the scheduler's loop keeps, with respect to the state [s0] of
    the query. *)
Definition kept (s0 s : State) : Prop :=
  plans s = plans s0 /\ isProcessing s = isProcessing s0 /\
  length (transactions s) = length (transactions s0) /\
  advances (transactions s0) (transactions s).

(** Whether an invocation holds the flag, as a number, and the number of
    invocations that do. *)
Definition weight (t : Task) : nat := if in_progress t then 1 else 0.

Definition holders (ts : list Task) : nat :=
  length (filter (fun t => in_progress t = true) ts).

(** The flag is set exactly when one invocation holds it, and no two do. *)
Definition exclusive (c : Config) : Prop :=
  holders (snd c) = if isProcessing (fst c) then 1%nat else 0%nat.

End Specs.
Export Specs.

(** ** Concrete scenarios *)

Module Scenario.

Local Open Scope string_scope.

Definition ann : User := mkUser "ann@example.org" "Ann Lee" "ann" (Fin 1000) (Fin 0).

Definition gold : Plan :=
  mkPlan "Gold" "Thirty days at ten percent" (Fin 10) (Fin 100) "30 days"
         ["daily accrual"] true.

(** A plan that was soft-deleted. *)
Definition retired : Plan := set_isActive false gold.

(** A plan whose duration does not match the pattern. *)
Definition open_ended : Plan :=
  mkPlan "Open" "No fixed term" (Fin 10) (Fin 100) "until further notice"
         ["flexible"] true.

Definition fresh : State :=
  mkState [gold; retired; open_ended] {[ 7%nat := ann ]} [] [] [] false.

(** Ann invests 200 in the Gold plan at time 0. *)
Definition invest_200 : InvestRequest := mkInvestRequest 0 (Fin 200) 7 None.

(** Ann after her deposit was debited by 200, and her investment of 200
    with a total interest of 20, as stored. *)
Definition ann_invested : User := set_deposit (Fin 800) ann.

Definition investment : Transaction :=
  mkTransaction "investment" (mkOwner 7 "ann@example.org" "ann") "active" (Fin 200)
    (mkPlanData "Gold" "30 days" (Fin 20) 0 (30 * day_ms) (Fin 0)) 0.

Definition invested : State :=
  mkState [gold; retired; open_ended] {[ 7%nat := ann_invested ]} [investment] [] [] false.

(** An investment of 200 whose total interest is 0, alone in the store. *)
Definition interest_free : Transaction :=
  mkTransaction "investment" (mkOwner 7 "ann@example.org" "ann") "active" (Fin 200)
    (mkPlanData "Gold" "30 days" (Fin 0) 0 (30 * day_ms) (Fin 0)) 0.

Definition invested_interest_free : State :=
  mkState [gold; retired; open_ended] {[ 7%nat := ann_invested ]} [interest_free]
          [] [] false.

(** The store while a sweep is in progress. *)
Definition sweeping : State := set_isProcessing true invested.

(** Ann's request with an interest of its own. *)
Definition invest_200_with (interest : num) : InvestRequest :=
  mkInvestRequest 0 (Fin 200) 7 (Some interest).

(** A request to create a plan with every field filled in. *)
Definition silver_request (roi minAmount : num) : PlanRequest :=
  mkPlanRequest (Some "Silver") (Some "Sixty days") (Some roi) (Some minAmount)
                (Some "60 days") (Some ["weekly accrual"]).

End Scenario.

(** ** Running a handler *)

Module HandlerTactics.

(** Unfolding of the monad and of the collaborators, to run a handler on
    a state about which lookups are known. *)
Ltac unfold_async :=
  unfold handler, Plan_findById, User_findById, User_save, Transaction_findById,
    Transaction_save, Transaction_create, send, access, bind, ret, gets, modify,
    return_, throw in *.

End HandlerTactics.
Import HandlerTactics.

(** ** [routes/plans.js]: the other plan handlers *)

Module PlanAdmin.

Local Open Scope string_scope.
Local Open Scope async_scope.

(** [GET /:id] *)
Definition getPlan_body (id : nat) : M Response Response :=
  plan <- Plan_findById id ;;
  match plan with
  | None => return_ (mkResponse 404 (Message "Plan not found"))
  | Some plan => ret (mkResponse 200 (PlanDoc plan))
  end.

Definition getPlan (id : nat) : State -> Response * State :=
  handler (getPlan_body id).

(** The order of [sort({ minAmount: 1 })] on two plans: the second does
    not have the smaller minimum. *)
Definition minAmount_le (p q : Plan) : Prop :=
  Num.lt (minAmount q) (minAmount p) = false.

#[global] Instance minAmount_le_dec (p q : Plan) : Decision (minAmount_le p q).
Proof. unfold minAmount_le. apply _. Defined.

#[global] Instance minAmount_le_total : Total minAmount_le.
Proof.
  intros p q. unfold minAmount_le.
  destruct (minAmount p) as [a | | |], (minAmount q) as [b | | |]; cbn; auto.
  unfold Num.Qlt_bool. destruct (Qle_bool a b) eqn:E1; cbn; [auto |].
  destruct (Qle_bool b a) eqn:E2; cbn; [auto |].
  exfalso.
  assert (H1 : ~ (a <= b)%Q) by (rewrite <- Qle_bool_iff, E1; discriminate).
  assert (H2 : ~ (b <= a)%Q) by (rewrite <- Qle_bool_iff, E2; discriminate).
  lra.
Qed.

(** [GET /]: the array that is answered, the active plans by ascending
    minimum amount.  The handler only reads. *)
Definition listPlans (s : State) : list Plan :=
  merge_sort minAmount_le (filter (fun p => isActive p = true) (plans s)).

(** [Plan.findOne] with the pattern made of the name and with
    [_id: { $ne: id }]. *)
Definition Plan_findOne_byName_except (n : string) (id : nat)
    : M Response (option Plan) :=
  access (FindPlanByName n) ;;
  gets (fun s =>
    snd <$> head (filter
      (fun it => String.eqb (toLowerCase (name (snd it))) (toLowerCase n) = true
                 /\ fst it <> id)
      (imap (fun i p => (i, p)) (plans s)))).

(** [Plan.findByIdAndUpdate(id, ..., { new: true })]: the document as
    updated, or nothing when there is no document with this [_id]. *)
Definition Plan_findByIdAndUpdate (id : nat) (update : Plan -> Plan)
    : M Response (option Plan) :=
  access (FindPlan id) ;;
  plan <- gets (fun s => plans s !! id) ;;
  match plan with
  | None => ret None
  | Some p =>
      access (SavePlan id) ;;
      modify (fun s => set_plans (<[id := update p]> (plans s)) s) ;;
      ret (Some (update p))
  end.

(** [PUT /:id] *)
Definition updatePlan_body (id : nat) (req : PlanRequest) : M Response Response :=
  if negb (truthy_string (q_name req)) || negb (truthy_string (q_description req))
     || negb (truthy_num (q_roi req)) || negb (truthy_num (q_minAmount req))
     || negb (truthy_string (q_duration req)) || negb (truthy_array (q_features req))
  then return_ (mkResponse 400 (Message "All fields are required"))
  else
    match q_name req, q_description req, q_roi req, q_minAmount req,
          q_duration req, q_features req with
    | Some name, Some description, Some roi, Some minAmount,
      Some duration, Some features =>
        if Num.lt roi (Fin 0) || Num.gt roi (Fin 1000)
        then return_ (mkResponse 400 (Message "ROI must be between 0 and 1000"))
        else if Num.lt minAmount (Fin 0)
        then return_ (mkResponse 400 (Message "Minimum amount must be positive"))
        else if (length features =? 0)%nat
        then return_ (mkResponse 400 (Message "At least one feature is required"))
        else
          existingPlan <- Plan_findOne_byName_except name id ;;
          match existingPlan with
          | Some _ => return_ (mkResponse 400 (Message "Plan name already exists"))
          | None =>
              plan <- Plan_findByIdAndUpdate id (fun p =>
                mkPlan name description roi minAmount duration
                  (filter (fun f => String.eqb (trim f) "" = false) features)
                  (isActive p)) ;;
              match plan with
              | None => return_ (mkResponse 404 (Message "Plan not found"))
              | Some plan => ret (mkResponse 200 (PlanDoc plan))
              end
          end
    | _, _, _, _, _, _ =>
        return_ (mkResponse 400 (Message "All fields are required"))
    end.

Definition updatePlan (id : nat) (req : PlanRequest) : State -> Response * State :=
  handler (updatePlan_body id req).

(** [DELETE /:id] *)
Definition deletePlan_body (id : nat) : M Response Response :=
  plan <- Plan_findByIdAndUpdate id (set_isActive false) ;;
  match plan with
  | None => return_ (mkResponse 404 (Message "Plan not found"))
  | Some _ => ret (mkResponse 200 (Message "Plan deleted successfully"))
  end.

Definition deletePlan (id : nat) : State -> Response * State :=
  handler (deletePlan_body id).

End PlanAdmin.
Export PlanAdmin.

(** ** [utils/seedUtil.js] *)

Module Seed.

Local Open Scope string_scope.

(** A coin of the seed document. *)
Record Coin : Type := mkCoin {
  c_name : string;
  c_address : string;
  c_network : string;
  c_price : Z;
  c_id : string
}.

(** A document of the [Util] collection. *)
Record Util : Type := mkUtil {
  coins : list Coin;
  version : Z
}.

Definition mockData : Util :=
  mkUtil
    [mkCoin "Bitcoin" "bc1q8csf9mfg7cyykcyw25uwpqnmwka0lx07hlhrgp" "BTC" 118997
            "6593e3525531a494b5b32548";
     mkCoin "Usdt" "0x38216890CBd4e1091Aa59dc976916260352fC229" "ERC20" 1
            "67683e1585fa55be01c15f9b";
     mkCoin "Ethereum" "0x38216890CBd4e1091Aa59dc976916260352fC229" "ETH" 2501
            "683502a75c259adaafa38e4f";
     mkCoin "Usdt" "TN3d7iTuZkn8JV5DFK3h3UhHrbVgnYypiJ" "TRC20" 1
            "683502a75c259adaafa38e50"]
    0.

(** [seedUtil] on the [Util] collection; the two awaited calls may
    reject, which the function catches. *)
Definition seedUtil (count_fails create_fails : bool) (utils : list Util)
    : list Util :=
  if count_fails then utils
  else if (length utils =? 0)%nat
  then (if create_fails then utils else utils ++ [mockData])
  else utils.

End Seed.

(** ** Notions used to state further properties *)

Module Outcome.

Local Open Scope string_scope.


(** The owner that a turn of the scheduler's loop gets hold of: none
    when the record is not due, when the lookup fails, or when there is
    no such user. *)
Definition reached (f : Faults) (now : Z) (us : gmap nat User)
    (it : nat * Transaction) : option User :=
  if isInvestmentDue (endDate (planData (snd it))) now
     && negb (findUser_fails f (fst it))
  then us !! o_id (Store.user (snd it))
  else None.

(** The owner of a completed record, with both balances credited. *)
Definition paid (inv : Transaction) (u : User) : User :=
  set_interest (Num.add (Store.interest u) (pd_interest (planData inv)))
    (set_deposit (Num.add (deposit u) (amount inv)) u).

(** Whether a sweep saves the record as completed. *)
Definition written (f : Faults) (now : Z) (us : gmap nat User)
    (it : nat * Transaction) : bool :=
  match reached f now us it with
  | Some _ => negb (saveTransaction_fails f (fst it))
  | None => false
  end.

(** The record at [id] after a sweep, from the record [inv] before it. *)
Definition swept (f : Faults) (now : Z) (us : gmap nat User) (id : nat)
    (inv : Transaction) : Transaction :=
  if is_active_investment inv && written f now us (id, inv)
  then completed inv else inv.

(** The mail of a completion. *)
Definition completion_mail (inv : Transaction) (u : User) : Mail :=
  investmentCompleted (email u) (fullName u) (amount inv) (date inv)
    (plan (planData inv)).

(** The faults of a sweep in which every save of a user fails and
    nothing else does. *)
Definition user_save_failing : Faults :=
  mkFaults false (fun _ => false) (fun _ => true) (fun _ => false) (fun _ => false).


(** A body of [POST /] or [PUT /:id] with every field there and the two
    amounts finite. *)
Definition full_request (n d dur : string) (r m : Q) (fs : list string) : PlanRequest :=
  mkPlanRequest (Some n) (Some d) (Some (Fin r)) (Some (Fin m)) (Some dur) (Some fs).

(** The plan that the two handlers make of such a body. *)
Definition stored_plan (n d dur : string) (r m : Q) (fs : list string)
    (active : bool) : Plan :=
  mkPlan n d (Fin r) (Fin m) dur
    (filter (fun f => String.eqb (trim f) "" = false) fs) active.

(** A name of letters, digits and spaces: as a pattern it matches the
    names that are the same up to the case of the letters, and no
    others. *)
Definition is_plain (c : ascii) : bool :=
  let k := nat_of_ascii c in
  ((48 <=? k) && (k <=? 57) || (65 <=? k) && (k <=? 90)
   || (97 <=? k) && (k <=? 122) || (k =? 32))%nat.

Fixpoint plain (s : string) : bool :=
  match s with
  | EmptyString => true
  | String c r => is_plain c && plain r
  end.

(** The collection after a series of runs of [seedUtil], each with its
    two faults. *)
Definition seeded (runs : list (bool * bool)) (utils : list Seed.Util)
    : list Seed.Util :=
  foldl (fun us cf => Seed.seedUtil (fst cf) (snd cf) us) utils runs.

End Outcome.
Export Outcome.

Module AnswerTactics.

(** A refusal of [PUT /:id] that stores nothing. *)
Ltac refused :=
  cbn; split; [reflexivity |]; split; [reflexivity |]; split; [reflexivity |];
  split; [intros _; reflexivity | let H := fresh in intros H; discriminate H].

End AnswerTactics.
Import AnswerTactics.

(** * Properties *)

(** ** Facts on the numbers of the model *)

Module NumProps.

Local Open Scope Q_scope.

Lemma Qeq_bool_false (a b : Q) : ~ a == b -> Qeq_bool a b = false.
Proof.
  intros H. destruct (Qeq_bool a b) eqn:E; [| reflexivity].
  apply Qeq_bool_iff in E. contradiction.
Qed.

Lemma Qeq_bool_true (a b : Q) : a == b -> Qeq_bool a b = true.
Proof. apply Qeq_bool_iff. Qed.

Lemma Qlt_bool_iff (a b : Q) : Num.Qlt_bool a b = true <-> a < b.
Proof.
  unfold Num.Qlt_bool. rewrite negb_true_iff. split.
  - intros H. apply Qnot_le_lt. intros Hle.
    apply Qle_bool_iff in Hle. congruence.
  - intros H. destruct (Qle_bool b a) eqn:E; [| reflexivity].
    apply Qle_bool_iff in E. lra.
Qed.


Lemma lt_Fin (a b : Q) : Num.lt (Fin a) (Fin b) = true <-> a < b.
Proof. apply Qlt_bool_iff. Qed.

Lemma lt_Fin_false (a b : Q) : Num.lt (Fin a) (Fin b) = false <-> b <= a.
Proof.
  simpl. unfold Num.Qlt_bool. rewrite negb_false_iff. apply Qle_bool_iff.
Qed.

(** A finite value over a non-zero finite value is their quotient. *)
Lemma div_Fin (a b : Q) : ~ b == 0 -> Num.div (Fin a) (Fin b) = Fin (a / b).
Proof. intros H. simpl. now rewrite (Qeq_bool_false _ _ H). Qed.

(** [0 / 0] is [NaN], for any representation of the two zeros. *)
Lemma div_zero_zero (a b : Q) : a == 0 -> b == 0 -> Num.div (Fin a) (Fin b) = NaN.
Proof.
  intros Ha Hb. simpl.
  now rewrite (Qeq_bool_true _ _ Hb), (Qeq_bool_true _ _ Ha).
Qed.

Lemma add_zero_r (x : num) : (Num.add x (Fin 0) ==n x)%num.
Proof. destruct x; simpl; trivial. lra. Qed.

Lemma eqv_refl (x : num) : (x ==n x)%num.
Proof. destruct x; simpl; trivial. reflexivity. Qed.

(** An integer below a rational is below its floor, and a rational below
    the successor of an integer has its floor at most that integer. *)
Lemma floor_ge_int (y : Q) (c : Z) : inject_Z c <= y -> (c <= Qfloor y)%Z.
Proof. intros H. rewrite <- (Qfloor_Z c). now apply Qfloor_resp_le. Qed.

Lemma floor_le_int (y : Q) (c : Z) : y < inject_Z c + 1 -> (Qfloor y <= c)%Z.
Proof.
  intros H. pose proof (Qfloor_le y) as Hf.
  assert (Hlt : inject_Z (Qfloor y) < inject_Z (c + 1)).
  { rewrite inject_Z_plus. change (inject_Z 1) with 1. lra. }
  rewrite <- Zlt_Qlt in Hlt. lia.
Qed.

End NumProps.
Import NumProps.

(** ** The date utilities *)

Module DateUtilsProps.

Local Open Scope string_scope.
Local Open Scope Z_scope.

Lemma plural_gt (n : Z) : plural n = if Z_gt_dec n 1 then "s" else "".
Proof.
  unfold plural. destruct (Z_gt_dec n 1) as [H | H].
  - apply Z.gtb_gt in H. now rewrite H.
  - destruct (n >? 1) eqn:E; [apply Z.gtb_gt in E; lia | reflexivity].
Qed.

Lemma append_assoc (a b c : string) : (a ++ b) ++ c = a ++ (b ++ c).
Proof.
  induction a as [| x a IH]; [reflexivity |].
  change (String x ((a ++ b) ++ c) = String x (a ++ (b ++ c))). now rewrite IH.
Qed.

(** The three counts the function computes are the digits of the
    remaining time in the mixed radix days / hours / minutes. *)
Lemma split_remaining (r d h m ms : Z) :
  0 <= d -> 0 <= h < 24 -> 0 <= m < 60 -> 0 <= ms < 60000 ->
  r = d * day_ms + h * hour_ms + m * minute_ms + ms ->
  r / day_ms = d /\ (r mod day_ms) / hour_ms = h /\
  (r mod hour_ms) / minute_ms = m.
Proof.
  unfold day_ms, hour_ms, minute_ms. intros Hd Hh Hm Hms ->.
  repeat split; Z.div_mod_to_equations; lia.
Qed.

(** C9. [formatTimeRemaining] returns the sentinel ["Investment
    completed"] when the remaining time is zero or negative.  Otherwise,
    with the remaining time written as [d] days, [h] hours, [m] minutes
    and a rest below a minute, it reports days and hours when [d > 0],
    else hours and minutes when [h > 0], else the minutes alone; each
    unit is in the plural exactly when its count is above one. *)
Theorem formatTimeRemaining_reports (endDate currentDate : Z) :
  (endDate - currentDate <= 0 ->
   formatTimeRemaining endDate currentDate = "Investment completed") /\
  (forall d h m ms : Z,
     0 <= d -> 0 <= h < 24 -> 0 <= m < 60 -> 0 <= ms < 60000 ->
     0 < endDate - currentDate ->
     endDate - currentDate = d * day_ms + h * hour_ms + m * minute_ms + ms ->
     formatTimeRemaining endDate currentDate =
       if Z_gt_dec d 0 then quantity d "day" ++ ", " ++ quantity h "hour"
       else if Z_gt_dec h 0 then quantity h "hour" ++ ", " ++ quantity m "minute"
       else quantity m "minute").
Proof.
  unfold formatTimeRemaining. split.
  - intros H. apply Z.leb_le in H. now rewrite H.
  - intros d h m ms Hd Hh Hm Hms Hpos Hr.
    destruct (split_remaining _ d h m ms Hd Hh Hm Hms Hr) as (-> & -> & ->).
    destruct (endDate - currentDate <=? 0) eqn:E; [apply Z.leb_le in E; lia |].
    destruct (Z_gt_dec d 0) as [Hd0 | Hd0].
    + apply Z.gtb_gt in Hd0. rewrite Hd0.
      unfold quantity. rewrite !plural_gt, !append_assoc. reflexivity.
    + destruct (d >? 0) eqn:E1; [apply Z.gtb_gt in E1; lia |].
      destruct (Z_gt_dec h 0) as [Hh0 | Hh0].
      * apply Z.gtb_gt in Hh0. rewrite Hh0.
        unfold quantity. rewrite !plural_gt, !append_assoc. reflexivity.
      * destruct (h >? 0) eqn:E2; [apply Z.gtb_gt in E2; lia |].
        unfold quantity. rewrite !plural_gt. reflexivity.
Qed.

End DateUtilsProps.

(** ** [calculateProgressiveInterest] *)

Module InterestProps.

Local Open Scope Q_scope.

Lemma cents_le (a b : Z) : (a <= b)%Z -> inject_Z a / 100 <= inject_Z b / 100.
Proof.
  intros H. apply Qmult_le_compat_r; [now rewrite <- Zle_Qle | discriminate].
Qed.

Lemma round_cents_mono (x y : Q) : x <= y -> round_cents x <= round_cents y.
Proof.
  intros H. apply cents_le, Qfloor_resp_le. lra.
Qed.

Lemma round_cents_nonneg (x : Q) : 0 <= x -> 0 <= round_cents x.
Proof.
  intros H. apply Qle_trans with (inject_Z 0 / 100); [discriminate |].
  apply cents_le, floor_ge_int. change (inject_Z 0) with 0. lra.
Qed.

(** Rounding to cents never takes a value above a whole number of cents
    that bounds it. *)
Lemma round_cents_le_cents (x t : Q) : whole_cents t -> x <= t -> round_cents x <= t.
Proof.
  intros [c Hc] H. rewrite Hc. apply cents_le, floor_le_int.
  assert (H100 : t * 100 == inject_Z c) by (rewrite Hc; field).
  lra.
Qed.

Section Term.

Variables (t : Q) (s e : Z).
Hypothesis t_nonneg : 0 <= t.
Hypothesis term : (s < e)%Z.

Lemma share_bounds (n : Z) : (s < n < e)%Z -> 0 < elapsed_share s e n < 1.
Proof.
  intros Hn. unfold elapsed_share.
  assert (H1 : 0 < inject_Z (n - s)) by (change 0 with (inject_Z 0); rewrite <- Zlt_Qlt; lia).
  assert (H2 : inject_Z (n - s) < inject_Z (e - s)) by (rewrite <- Zlt_Qlt; lia).
  split.
  - apply Qlt_shift_div_l; lra.
  - apply Qlt_shift_div_r; lra.
Qed.

Lemma share_mono (n1 n2 : Z) :
  (n1 <= n2)%Z -> elapsed_share s e n1 <= elapsed_share s e n2.
Proof.
  intros Hn. unfold elapsed_share, Qdiv.
  assert (H0 : 0 < inject_Z (e - s)) by (change 0 with (inject_Z 0); rewrite <- Zlt_Qlt; lia).
  apply Qmult_le_compat_r.
  - rewrite <- Zle_Qle. lia.
  - apply Qlt_le_weak, Qinv_lt_0_compat, H0.
Qed.

Lemma before_start (n : Z) : (n <= s)%Z -> calculateProgressiveInterest (Fin t) s e n = Fin 0.
Proof.
  intros Hn. unfold calculateProgressiveInterest.
  destruct (Z.leb_spec (Z.min (n - s) (e - s)) 0); [reflexivity | lia].
Qed.

Lemma after_end (n : Z) : (e <= n)%Z -> calculateProgressiveInterest (Fin t) s e n = Fin t.
Proof.
  intros Hn. unfold calculateProgressiveInterest.
  destruct (Z.leb_spec (Z.min (n - s) (e - s)) 0); [lia |].
  destruct (Z.geb_spec (Z.min (n - s) (e - s)) (e - s)); [reflexivity | lia].
Qed.

Lemma between (n : Z) :
  (s < n < e)%Z ->
  calculateProgressiveInterest (Fin t) s e n =
    Fin (round_cents (t * elapsed_share s e n)).
Proof.
  intros Hn. unfold calculateProgressiveInterest.
  replace (Z.min (n - s) (e - s)) with (n - s)%Z by lia.
  destruct (Z.leb_spec (n - s) 0); [lia |].
  destruct (Z.geb_spec (n - s) (e - s)); [lia |].
  unfold Num.of_Z. rewrite div_Fin.
  - reflexivity.
  - change 0 with (inject_Z 0). rewrite inject_Z_injective. lia.
Qed.

(** The value as a rational, by the three cases. *)
Lemma value (n : Z) :
  exists q, calculateProgressiveInterest (Fin t) s e n = Fin q /\ 0 <= q /\
            ((n < e)%Z -> forall m q', (m <= n)%Z ->
               calculateProgressiveInterest (Fin t) s e m = Fin q' -> q' <= q) /\
            (whole_cents t -> q <= t).
Proof.
  destruct (Z_le_gt_dec n s) as [H1 | H1].
  { exists 0. split; [now apply before_start |]. split; [lra |]. split.
    - intros _ m q' Hm Hq'. rewrite before_start in Hq' by lia.
      injection Hq' as <-. lra.
    - intros _. exact t_nonneg. }
  destruct (Z_le_gt_dec e n) as [H2 | H2].
  { exists t. split; [now apply after_end |]. split; [lra |]. split.
    - intros Hlt. lia.
    - intros _. lra. }
  assert (Hn : (s < n < e)%Z) by lia.
  pose proof (share_bounds n Hn) as Hp.
  exists (round_cents (t * elapsed_share s e n)).
  split; [now apply between |]. split.
  - apply round_cents_nonneg. nra.
  - split.
    + intros _ m q' Hm Hq'.
      destruct (Z_le_gt_dec m s) as [H3 | H3].
      * rewrite before_start in Hq' by lia. injection Hq' as <-.
        apply round_cents_nonneg. nra.
      * rewrite between in Hq' by lia. injection Hq' as <-.
        apply round_cents_mono.
        pose proof (share_mono m n Hm). nra.
    + intros Hc. apply round_cents_le_cents; [exact Hc | nra].
Qed.

End Term.


End InterestProps.

(** ** The progress projections *)

Module ProgressProps.

Local Open Scope Q_scope.

(** With a total interest of zero the accrued interest is zero at every
    date, whatever the term. *)
Lemma accrued_of_zero (q : Q) (s e n : Z) :
  q == 0 ->
  exists x, calculateProgressiveInterest (Fin q) s e n = Fin x /\ x == 0.
Proof.
  intros Hq. unfold calculateProgressiveInterest.
  destruct (Z.leb_spec (Z.min (n - s) (e - s)) 0) as [H1 | H1].
  { exists 0. split; reflexivity. }
  destruct (Z.geb_spec (Z.min (n - s) (e - s)) (e - s)) as [H2 | H2].
  { exists q. split; [reflexivity | exact Hq]. }
  unfold Num.of_Z. rewrite div_Fin.
  - eexists. split; [reflexivity |].
    match goal with
    | |- inject_Z (Qfloor ?y) / 100 == 0 =>
        assert (Hy : y == 1 # 2) by (rewrite Hq; ring)
    end.
    rewrite Hy. reflexivity.
  - change 0 with (inject_Z 0). rewrite inject_Z_injective. lia.
Qed.

(** The percentage is then [0 / 0]. *)
Lemma progress_percent_of_zero (q : Q) (s e n : Z) :
  q == 0 ->
  progress_percent (calculateProgressiveInterest (Fin q) s e n) (Fin q) = NaN.
Proof.
  intros Hq. destruct (accrued_of_zero q s e n Hq) as (x & -> & Hx).
  unfold progress_percent. now rewrite (div_zero_zero x q Hx Hq).
Qed.

End ProgressProps.

Module ProgressHandlers.

Import ProgressProps.
Local Open Scope string_scope.

(** C10. For a stored investment whose total interest is zero, the
    [progress] field of [GET /investment/:id/progress] is [NaN], the
    result of the unguarded division [0 / 0]; and when the record is
    active, its element in the list of [GET /investments/active] has a
    [progress] of [NaN] too. *)
Theorem progress_of_zero_interest (s : State) (id : nat) (t : Transaction)
    (q : Q) (now : Z) :
  transactions s !! id = Some t ->
  type t = "investment" ->
  pd_interest (planData t) = Fin q ->
  (q == 0)%Q ->
  (exists p, fst (investmentProgress id now s) = mkResponse 200 (ProgressOf p) /\
             totalInterest p = Fin q /\ progress p = NaN) /\
  (status t = "active" ->
   exists l total ready w,
     fst (activeInvestments now s) = mkResponse 200 (ActiveInvestments l total ready) /\
     w ∈ l /\ doc w = t /\ w_progress w = NaN).
Proof.
  intros Ht Hty Hq Hz. split.
  - unfold investmentProgress, investmentProgress_body. unfold_async. cbn.
    rewrite Ht, Hty. cbn. eexists. split; [reflexivity |]. cbn.
    rewrite Hq. split; [reflexivity |]. now apply progress_percent_of_zero.
  - intros Hst. unfold activeInvestments, activeInvestments_body. unfold_async. cbn.
    do 3 eexists. exists (withProgress now t).
    split; [reflexivity |]. split; [| split].
    + apply list_elem_of_In, in_map, list_elem_of_In, list_elem_of_filter. split.
      * unfold is_active_investment. now rewrite Hty, Hst.
      * eapply list_elem_of_lookup_2, Ht.
    + reflexivity.
    + unfold withProgress. cbn. rewrite Hq. now apply progress_percent_of_zero.
Qed.

End ProgressHandlers.

(** ** [PUT /investment/:id] *)

Module StatusProps.

Local Open Scope string_scope.

(** A rejection, on a state where the record and its owner are found. *)
Lemma reject_once (s : State) (id : nat) (t : Transaction) (u : User) :
  transactions s !! id = Some t ->
  type t = "investment" ->
  users s !! o_id (Store.user t) = Some u ->
  let t' := set_amount (Fin 0) (set_status "rejected" t) in
  let u' := set_deposit (Num.add (deposit u) (amount t)) u in
  let s' := snd (updateInvestment id "rejected" s) in
  fst (updateInvestment id "rejected" s) = mkResponse 200 (Updated "rejected" t') /\
  users s' = <[o_id (Store.user t) := u']> (users s) /\
  transactions s' = <[id := t']> (transactions s) /\
  outbox s' = (outbox s ++ [investmentRejected (email u) (fullName u) (Fin 0)
                             (date t) (plan (planData t))])%list /\
  plans s' = plans s /\ isProcessing s' = isProcessing s.
Proof.
  intros Ht Hty Hu.
  unfold updateInvestment, updateInvestment_body. unfold_async. cbn.
  rewrite Ht, Hty. cbn. rewrite Hu. cbn. repeat split.
Qed.

(** C2. Rejecting an investment with stored amount [A] credits the
    owner's [deposit] by [A], stores an amount of [0], and sends the
    rejection mail with the amount read after it was zeroed, that is
    [0]; a second rejection of the same record credits [0], so the
    deposit keeps its value. *)
Theorem reject_refunds_once (s : State) (id : nat) (t : Transaction) (u : User) :
  transactions s !! id = Some t ->
  type t = "investment" ->
  users s !! o_id (Store.user t) = Some u ->
  let uid := o_id (Store.user t) in
  let s1 := snd (updateInvestment id "rejected" s) in
  let s2 := snd (updateInvestment id "rejected" s1) in
  (exists u1 t1,
     users s1 !! uid = Some u1 /\ transactions s1 !! id = Some t1 /\
     deposit u1 = Num.add (deposit u) (amount t) /\
     Store.interest u1 = Store.interest u /\
     amount t1 = Fin 0 /\ status t1 = "rejected" /\
     outbox s1 = (outbox s ++ [investmentRejected (email u) (fullName u) (Fin 0)
                                (date t) (plan (planData t))])%list /\
     exists u2 t2,
       users s2 !! uid = Some u2 /\ transactions s2 !! id = Some t2 /\
       deposit u2 = Num.add (deposit u1) (Fin 0) /\
       (deposit u2 ==n deposit u1)%num /\
       amount t2 = Fin 0 /\
       outbox s2 = (outbox s1 ++ [investmentRejected (email u) (fullName u) (Fin 0)
                                   (date t) (plan (planData t))])%list).
Proof.
  intros Ht Hty Hu uid s1 s2.
  destruct (reject_once s id t u Ht Hty Hu) as (_ & Hus & Hts & Hout & _).
  fold s1 in Hus, Hts, Hout.
  set (t1 := set_amount (Fin 0) (set_status "rejected" t)) in *.
  set (u1 := set_deposit (Num.add (deposit u) (amount t)) u) in *.
  assert (Hu1 : users s1 !! uid = Some u1) by (rewrite Hus; apply lookup_insert_eq).
  assert (Ht1 : transactions s1 !! id = Some t1).
  { rewrite Hts. apply list_lookup_insert_eq. eapply lookup_lt_Some, Ht. }
  exists u1, t1. repeat (split; [first [assumption | reflexivity] |]).
  destruct (reject_once s1 id t1 u1 Ht1 Hty Hu1) as (_ & Hus2 & Hts2 & Hout2 & _).
  fold s2 in Hus2, Hts2, Hout2.
  exists (set_deposit (Num.add (deposit u1) (amount t1)) u1),
         (set_amount (Fin 0) (set_status "rejected" t1)).
  split; [rewrite Hus2; apply lookup_insert_eq |].
  split; [rewrite Hts2; apply list_lookup_insert_eq; eapply lookup_lt_Some, Ht1 |].
  split; [reflexivity |].
  split; [apply add_zero_r |].
  split; [reflexivity | exact Hout2].
Qed.

(** A completion through the handler, on a state where the record and
    its owner are found: both balances are credited and the status is
    stored, and the record's [currentInterest] is stored as it was. *)
Lemma complete_by_handler (s : State) (id : nat) (t : Transaction) (u : User) :
  transactions s !! id = Some t ->
  type t = "investment" ->
  users s !! o_id (Store.user t) = Some u ->
  let t' := set_status "completed" t in
  let u' := set_interest (Num.add (Store.interest u) (pd_interest (planData t)))
              (set_deposit (Num.add (deposit u) (amount t)) u) in
  let s' := snd (updateInvestment id "completed" s) in
  fst (updateInvestment id "completed" s) = mkResponse 200 (Updated "completed" t') /\
  users s' = <[o_id (Store.user t) := u']> (users s) /\
  transactions s' = <[id := t']> (transactions s) /\
  outbox s' = (outbox s ++ [investmentCompleted (email u) (fullName u) (amount t)
                             (date t) (plan (planData t))])%list /\
  plans s' = plans s /\ isProcessing s' = isProcessing s /\
  currentInterest (planData t') = currentInterest (planData t).
Proof.
  intros Ht Hty Hu.
  unfold updateInvestment, updateInvestment_body. unfold_async. cbn.
  rewrite Ht, Hty. cbn. rewrite Hu. cbn. repeat split.
Qed.

End StatusProps.

(** ** [POST /] *)

Module PlanProps.

Local Open Scope string_scope.

(** The presence test takes a rate of return of zero for a missing
    field, whatever the other fields are. *)
Lemma createPlan_zero_roi (req : PlanRequest) (s : State) (q : Q) :
  q_roi req = Some (Fin q) -> (q == 0)%Q ->
  createPlan req s = (mkResponse 400 (Message "All fields are required"), s).
Proof.
  intros Hr Hq. unfold createPlan, createPlan_body.
  assert (E : truthy_num (q_roi req) = false).
  { rewrite Hr. simpl. now rewrite (Qeq_bool_true _ _ Hq). }
  rewrite E. cbn. rewrite !orb_true_r. reflexivity.
Qed.

(** And so for a minimum amount of zero. *)
Lemma createPlan_zero_minAmount (req : PlanRequest) (s : State) (q : Q) :
  q_minAmount req = Some (Fin q) -> (q == 0)%Q ->
  createPlan req s = (mkResponse 400 (Message "All fields are required"), s).
Proof.
  intros Hr Hq. unfold createPlan, createPlan_body.
  assert (E : truthy_num (q_minAmount req) = false).
  { rewrite Hr. simpl. now rewrite (Qeq_bool_true _ _ Hq). }
  rewrite E. cbn. rewrite !orb_true_r. reflexivity.
Qed.

(** A request with non-empty strings, a rate of return in (0, 1000], a
    minimum amount above 0, at least one feature and a name that no
    stored plan has is answered 201 with the created plan, which is
    appended to the collection. *)
Lemma createPlan_accepts (s : State) (n d dur : string) (r m : Q) (fs : list string) :
  n <> "" -> d <> "" -> dur <> "" ->
  (0 < r <= 1000)%Q -> (0 < m)%Q -> fs <> [] ->
  (forall p, p ∈ plans s -> toLowerCase (name p) <> toLowerCase n) ->
  let created := mkPlan n d (Fin r) (Fin m) dur
                   (filter (fun f => String.eqb (trim f) "" = false) fs) true in
  fst (createPlan (mkPlanRequest (Some n) (Some d) (Some (Fin r)) (Some (Fin m))
                     (Some dur) (Some fs)) s) = mkResponse 201 (PlanDoc created) /\
  plans (snd (createPlan (mkPlanRequest (Some n) (Some d) (Some (Fin r)) (Some (Fin m))
                     (Some dur) (Some fs)) s)) = (plans s ++ [created])%list.
Proof.
  intros Hn Hd Hdur [Hr0 Hr1] Hm Hfs Hfresh created.
  unfold createPlan, createPlan_body. cbn.
  apply String.eqb_neq in Hn, Hd, Hdur. rewrite Hn, Hd, Hdur. cbn.
  rewrite (Qeq_bool_false r 0), (Qeq_bool_false m 0) by lra. cbn.
  assert (E1 : Num.Qlt_bool r 0 = false).
  { destruct (Num.Qlt_bool r 0) eqn:E; [apply Qlt_bool_iff in E; lra | reflexivity]. }
  assert (E2 : Num.Qlt_bool 1000 r = false).
  { destruct (Num.Qlt_bool 1000 r) eqn:E; [apply Qlt_bool_iff in E; lra | reflexivity]. }
  assert (E3 : Num.Qlt_bool m 0 = false).
  { destruct (Num.Qlt_bool m 0) eqn:E; [apply Qlt_bool_iff in E; lra | reflexivity]. }
  unfold Num.gt. cbn. rewrite E1, E2, E3. cbn.
  destruct fs as [| f fs]; [contradiction |]. cbn.
  unfold Plan_findOne_byName, Plan_create. unfold_async. cbn.
  assert (E4 : filter (fun p => String.eqb (toLowerCase (name p)) (toLowerCase n) = true)
                 (plans s) = []).
  { match goal with |- ?l = [] => destruct l as [| p ps] eqn:E end; [reflexivity |].
    assert (Hp : p ∈ p :: ps) by apply list_elem_of_here.
    rewrite <- E in Hp. apply list_elem_of_filter in Hp as [Hp1 Hp2].
    apply String.eqb_eq in Hp1. destruct (Hfresh p Hp2 Hp1). }
  rewrite E4. cbn. split; reflexivity.
Qed.

End PlanProps.

(** ** [POST /invest] *)

Module InvestProps.

Local Open Scope string_scope.

Lemma Qlt_bool_false (a b : Q) : (b <= a)%Q -> Num.Qlt_bool a b = false.
Proof.
  intros H. destruct (Num.Qlt_bool a b) eqn:E; [| reflexivity].
  apply Qlt_bool_iff in E. lra.
Qed.

(** A request that passes the four tests debits the deposit and saves
    the user before the end date is computed. *)
Lemma invest_debits (req : InvestRequest) (now : Z) (s : State) (p : Plan) (u : User) :
  plans s !! planId req = Some p -> isActive p = true ->
  Num.lt (r_amount req) (minAmount p) = false ->
  users s !! userId req = Some u ->
  Num.lt (deposit u) (r_amount req) = false ->
  let u' := set_deposit (Num.sub (deposit u) (r_amount req)) u in
  let s' := snd (invest req now s) in
  users s' = <[userId req := u']> (users s) /\
  plans s' = plans s /\
  match calculateEndDate now (duration p) with
  | Some endDate =>
      fst (invest req now s) =
        mkResponse 201 (Activated (deposit u') (length (transactions s)) "active"
                          now endDate (endDate - now)) /\
      transactions s' = (transactions s ++ [created req now endDate p u'])%list /\
      outbox s' = (outbox s ++
                    [investmentApproved (email u) (fullName u) (r_amount req) now (name p);
                     alertAdmin (email u) (r_amount req) now "investment"])%list
  | None =>
      code (fst (invest req now s)) = 500%nat /\
      transactions s' = transactions s /\ outbox s' = outbox s
  end.
Proof.
  intros Hp Hact Hmin Hu Hdep.
  unfold invest, invest_body. unfold_async. cbn.
  rewrite Hp. cbn. rewrite Hact. cbn. rewrite Hmin. cbn. rewrite Hu. cbn.
  rewrite Hdep. cbn.
  destruct (calculateEndDate now (duration p)) as [endDate |]; cbn.
  - repeat split. now rewrite <- app_assoc.
  - repeat split.
Qed.



(** C3, as corrected.  On a plan that is found and active, a creation
    with a finite amount [a] not below the plan's minimum, by a user
    whose deposit [d] is at least [a], leaves a deposit of [d - a],
    which is not negative.  When the plan's duration is well formed the
    creation is answered 201 with that balance and stores one record,
    active, with a [currentInterest] of 0; its total interest is
    [a * roi / 100] when the request has no interest or an interest of 0,
    and is the interest of the request when that is not 0. *)
Theorem invest_debits_and_records (req : InvestRequest) (now : Z) (s : State)
    (p : Plan) (u : User) (a d : Q) :
  plans s !! planId req = Some p -> isActive p = true ->
  r_amount req = Fin a -> Num.lt (Fin a) (minAmount p) = false ->
  users s !! userId req = Some u -> deposit u = Fin d -> (a <= d)%Q ->
  let s' := snd (invest req now s) in
  users s' !! userId req = Some (set_deposit (Fin (d - a)) u) /\
  (0 <= d - a)%Q /\
  forall endDate, calculateEndDate now (duration p) = Some endDate ->
    exists t,
      fst (invest req now s) =
        mkResponse 201 (Activated (Fin (d - a)) (length (transactions s)) "active"
                          now endDate (endDate - now)) /\
      transactions s' = (transactions s ++ [t])%list /\
      amount t = Fin a /\ status t = "active" /\
      currentInterest (planData t) = Fin 0 /\
      (r_interest req = None ->
       pd_interest (planData t) = Num.div (Num.mul (Fin a) (roi p)) (Fin 100)) /\
      (forall r, r_interest req = None -> roi p = Fin r ->
                 pd_interest (planData t) = Fin (a * r / 100)) /\
      (forall v, r_interest req = Some v -> Num.truthy v = false ->
                 pd_interest (planData t) = Num.div (Num.mul (Fin a) (roi p)) (Fin 100)) /\
      (forall v, r_interest req = Some v -> Num.truthy v = true ->
                 pd_interest (planData t) = v).
Proof.
  intros Hp Hact Ha Hmin Hu Hd Had s'.
  assert (Hdep : Num.lt (deposit u) (r_amount req) = false).
  { rewrite Hd, Ha. now apply Qlt_bool_false. }
  rewrite <- Ha in Hmin.
  destruct (invest_debits req now s p u Hp Hact Hmin Hu Hdep) as (Hus & _ & Hend).
  fold s' in Hus, Hend. rewrite Hd, Ha in Hus, Hend.
  split; [rewrite Hus; apply lookup_insert_eq |].
  split; [lra |].
  intros endDate He. rewrite He in Hend. destruct Hend as (Hr & Hts & _).
  eexists. split; [exact Hr |]. split; [exact Hts |].
  unfold created. cbn. rewrite Ha.
  split; [reflexivity |]. split; [reflexivity |]. split; [reflexivity |].
  split; [intros ->; reflexivity |].
  split; [intros r -> ->; reflexivity |].
  split; [intros v -> Hv; cbn; now rewrite Hv |].
  intros v -> Hv. cbn. now rewrite Hv.
Qed.

End InvestProps.
Import InvestProps.

Module LifecycleProps.

Local Open Scope string_scope.

Lemma le_refl_left (x y : num) : Num.le x y = true -> Num.le x x = true.
Proof.
  destruct x, y; simpl; try discriminate; auto;
    intros _; apply Qle_bool_iff, Qle_refl.
Qed.

Lemma le_refl_right (x y : num) : Num.le x y = true -> Num.le y y = true.
Proof.
  destruct x, y; simpl; try discriminate; auto;
    intros _; apply Qle_bool_iff, Qle_refl.
Qed.

Lemma evolves_refl (t : Transaction) : evolves t t.
Proof. split; auto. Qed.

Lemma evolves_trans (t1 t2 t3 : Transaction) :
  evolves t1 t2 -> evolves t2 t3 -> evolves t1 t3.
Proof.
  intros [H1 H2] [H3 H4]. split; [congruence |].
  destruct H4 as [H4 | H4]; [destruct H2; [left | right]; congruence |].
  right. congruence.
Qed.

Lemma evolves_bounded (t t' : Transaction) : bounded t -> evolves t t' -> bounded t'.
Proof.
  unfold bounded. intros Hb [H1 [H2 | H2]]; rewrite H1, H2; [exact Hb |].
  eapply le_refl_right, Hb.
Qed.

Lemma evolves_monotone (t t' : Transaction) :
  bounded t -> evolves t t' ->
  Num.le (currentInterest (planData t)) (currentInterest (planData t')) = true.
Proof.
  unfold bounded. intros Hb [_ [H | H]]; rewrite H; [| exact Hb].
  eapply le_refl_left, Hb.
Qed.

Lemma advances_refl (l : list Transaction) : advances l l.
Proof. intros i t H. exists t. split; [exact H | apply evolves_refl]. Qed.

Lemma advances_trans (l1 l2 l3 : list Transaction) :
  advances l1 l2 -> advances l2 l3 -> advances l1 l3.
Proof.
  intros H12 H23 i t1 H1. destruct (H12 i t1 H1) as (t2 & H2 & E12).
  destruct (H23 i t2 H2) as (t3 & H3 & E23).
  exists t3. split; [exact H3 | eapply evolves_trans; eassumption].
Qed.

Lemma advances_app (l l' : list Transaction) : advances l (l ++ l').
Proof.
  intros i t H. exists t. split; [now apply lookup_app_l_Some | apply evolves_refl].
Qed.

(** Saving a later version of the record at [i]. *)
Lemma advances_insert (l : list Transaction) (i : nat) (t t' : Transaction) :
  l !! i = Some t -> evolves t t' -> advances l (<[i := t']> l).
Proof.
  intros Hi He j u Hj. destruct (decide (i = j)) as [<- | Hne].
  - exists t'. split.
    + apply list_lookup_insert_eq. eapply lookup_lt_Some, Hi.
    + congruence.
  - exists u. split; [now rewrite list_lookup_insert_ne | apply evolves_refl].
Qed.

Lemma Forall_bounded_advances (l l' : list Transaction) :
  length l' = length l -> Forall bounded l -> advances l l' -> Forall bounded l'.
Proof.
  intros Hlen Hb Hadv. apply Forall_lookup. intros i t' Hi.
  destruct (lookup_lt_is_Some_2 l i) as [t Ht].
  { rewrite <- Hlen. eapply lookup_lt_Some, Hi. }
  destruct (Hadv i t Ht) as (t'' & Hi' & He).
  assert (t'' = t') by congruence. subst t''.
  eapply evolves_bounded; [| exact He].
  eapply Forall_lookup_1; eassumption.
Qed.

End LifecycleProps.
Import LifecycleProps.

Module SweepEffects.

Local Open Scope nat_scope.

Lemma process_unfold (f : Faults) (now : Z) (s : State) :
  processCompletedInvestments f now s =
    if isProcessing s then s
    else set_isProcessing false
           (if find_fails f then queried s
            else snd (for_of (R := unit) (active_snapshot (queried s))
                        (guarded_turn f now) (queried s))).
Proof.
  unfold processCompletedInvestments, processCompletedInvestments_body.
  unfold_async. cbn. destruct (isProcessing s); cbn; [reflexivity |].
  unfold try_finally, try_catch, sweep, Transaction_find_active, rejecting.
  unfold_async. cbn. fold (queried s).
  destruct (find_fails f); cbn; [reflexivity |].
  destruct (for_of _ _ _) as [[a | r | e] s1]; reflexivity.
Qed.

(** What one turn of the loop does to the collections. *)
Lemma turn_effect (f : Faults) (now : Z) (id : nat) (inv : Transaction) (s : State) :
  let s' := snd (turn (R := unit) (guarded_turn f now (id, inv)) s) in
  plans s' = plans s /\ isProcessing s' = isProcessing s /\
  (transactions s' = transactions s \/
   transactions s' = <[id := completed inv]> (transactions s)).
Proof.
  unfold turn, guarded_turn, try_catch, complete_if_due, User_findById_for,
    save_both, rejecting.
  unfold_async. cbn.
  destruct (isInvestmentDue _ _); cbn; [| auto].
  destruct (findUser_fails f id); cbn; [auto |].
  destruct (users s !! _) as [u |]; cbn; [| auto].
  destruct (saveUser_fails f id), (saveTransaction_fails f id); cbn; auto;
    destruct (mail_fails f id); cbn; auto.
Qed.

(** A property of the state that every turn keeps holds after the loop. *)
Lemma for_of_preserves {A} (P : State -> Prop) (body : A -> M unit unit) (l : list A) :
  (forall x s, x ∈ l -> P s -> P (snd (turn (R := unit) (body x) s))) ->
  forall s, P s -> P (snd (for_of (R := unit) l body s)).
Proof.
  induction l as [| x l IH]; intros Hbody s Hs; [exact Hs |].
  cbn. unfold bind.
  pose proof (Hbody x s (list_elem_of_here _ _) Hs) as H1.
  destruct (turn (body x) s) as [[a | r | e] s1]; cbn in *; try exact H1.
  apply IH; [| exact H1].
  intros y s2 Hy. apply Hbody. now apply list_elem_of_further.
Qed.

Lemma snapshot_lookup (s : State) (id : nat) (inv : Transaction) :
  (id, inv) ∈ active_snapshot s -> transactions s !! id = Some inv.
Proof.
  intros H. apply list_elem_of_filter in H as [_ H].
  apply elem_of_lookup_imap in H as (i & y & E & Hi). congruence.
Qed.

Lemma kept_refl (s : State) : kept s s.
Proof. repeat split. apply advances_refl. Qed.

Lemma loop_keeps (f : Faults) (now : Z) (s0 : State) :
  kept s0 (snd (for_of (R := unit) (active_snapshot s0) (guarded_turn f now) s0)).
Proof.
  apply for_of_preserves; [| apply kept_refl].
  intros [id inv] s Hin (Hp & Hf & Hlen & Hadv).
  apply snapshot_lookup in Hin.
  destruct (turn_effect f now id inv s) as (Hp1 & Hf1 & Ht1).
  split; [congruence |]. split; [congruence |].
  destruct Ht1 as [-> | ->]; [auto |].
  split; [now rewrite length_insert |].
  intros j u Hj. destruct (decide (id = j)) as [<- | Hne].
  - exists (completed inv). split.
    + apply list_lookup_insert_eq. rewrite Hlen. eapply lookup_lt_Some, Hj.
    + assert (u = inv) by congruence. subst u.
      split; [reflexivity | now right].
  - rewrite list_lookup_insert_ne by assumption. now apply Hadv.
Qed.

Lemma process_effect (f : Faults) (now : Z) (s : State) :
  let s' := processCompletedInvestments f now s in
  plans s' = plans s /\ length (transactions s') = length (transactions s) /\
  advances (transactions s) (transactions s').
Proof.
  cbv zeta. rewrite process_unfold.
  destruct (isProcessing s); [auto using advances_refl |].
  destruct (find_fails f); [cbn; auto using advances_refl |].
  destruct (loop_keeps f now (queried s)) as (Hp & _ & Hlen & Hadv).
  cbn in *. auto.
Qed.

End SweepEffects.
Import SweepEffects.

(** ** The accrued interest over the life of a record *)

Module InvariantProps.

Local Open Scope string_scope.
Local Open Scope nat_scope.

(** The handler saves the record it read with its plan snapshot as it was. *)
Lemma update_effect (id : nat) (status : string) (s : State) :
  let s' := snd (updateInvestment id status s) in
  plans s' = plans s /\
  (transactions s' = transactions s \/
   exists t t', transactions s !! id = Some t /\ planData t' = planData t /\
                transactions s' = <[id := t']> (transactions s)).
Proof.
  unfold updateInvestment, updateInvestment_body. unfold_async. cbn.
  destruct (transactions s !! id) as [t |] eqn:Ht; cbn; [| auto].
  destruct (String.eqb (type t) "investment"); cbn; [| auto].
  destruct (users s !! _) as [u |]; cbn; [| auto].
  destruct (String.eqb status "rejected"), (String.eqb status "approved"),
    (String.eqb status "completed"); cbn;
    (split; [reflexivity | right; eexists _, _; split; [reflexivity | split; [| reflexivity]]; reflexivity]).
Qed.

Lemma invest_effect (req : InvestRequest) (now : Z) (s : State) :
  let s' := snd (invest req now s) in
  plans s' = plans s /\
  (transactions s' = transactions s \/
   exists p u e, plans s !! planId req = Some p /\
     transactions s' = transactions s ++ [created req now e p u])%list.
Proof.
  unfold invest, invest_body. unfold_async. cbn.
  destruct (plans s !! planId req) as [p |] eqn:Hp; cbn; [| auto].
  destruct (isActive p); cbn; [| auto].
  destruct (Num.lt (r_amount req) (minAmount p)); cbn; [auto |].
  destruct (users s !! userId req) as [u |]; cbn; [| auto].
  destruct (Num.lt (deposit u) (r_amount req)); cbn; [auto |].
  destruct (calculateEndDate now (duration p)) as [e |]; cbn; [| auto].
  split; [reflexivity |]. right. eexists p, _, e. split; reflexivity.
Qed.

(** A creation stores its record with an accrued interest of 0. *)
Lemma creation_starts_at_zero (req : InvestRequest) (now : Z) (s : State) :
  forall i t', length (transactions s) <= i ->
    transactions (perform (Create req now) s) !! i = Some t' ->
    currentInterest (planData t') = Fin 0.
Proof.
  intros i t' Hi Ht'. cbn in Ht'.
  destruct (invest_effect req now s) as (_ & [E | (p & u & e & _ & E)]);
    rewrite E in Ht'.
  - apply lookup_lt_Some in Ht'. lia.
  - apply lookup_app_Some in Ht' as [Ht' | [_ Ht']];
      [apply lookup_lt_Some in Ht'; lia |].
    apply list_lookup_singleton_Some in Ht' as [_ <-]. reflexivity.
Qed.

Lemma no_new_record (l l' : list Transaction) (P : Transaction -> Prop) :
  length l' = length l ->
  forall i t', length l <= i -> l' !! i = Some t' -> P t'.
Proof. intros Hlen i t' Hi Ht'. apply lookup_lt_Some in Ht'. lia. Qed.

Lemma perform_effect (o : Op) (s : State) :
  Forall bounded (transactions s) ->
  nonneg_interest (plans s) o ->
  let s1 := perform o s in
  plans s1 = plans s /\
  Forall bounded (transactions s1) /\
  advances (transactions s) (transactions s1) /\
  (forall i t', length (transactions s) <= i -> transactions s1 !! i = Some t' ->
                currentInterest (planData t') = Fin 0).
Proof.
  intros Hb Hnn. destruct o as [req now | id status | f now]; cbn.
  - destruct (invest_effect req now s) as (Hp & [-> | (p & u & e & Hplan & ->)]).
    + split; [exact Hp |]. split; [exact Hb |]. split; [apply advances_refl |].
      now apply no_new_record.
    + assert (Hc : bounded (created req now e p u)) by exact (Hnn p Hplan).
      split; [exact Hp |]. split; [| split; [apply advances_app |]].
      * apply Forall_app. split; [exact Hb | now constructor].
      * intros i t' Hi Ht'.
        apply lookup_app_Some in Ht' as [Ht' | [_ Ht']];
          [apply lookup_lt_Some in Ht'; lia |].
        apply list_lookup_singleton_Some in Ht' as [_ <-]. reflexivity.
  - destruct (update_effect id status s) as (Hp & [-> | (t & t' & Ht & Hpd & ->)]).
    + split; [exact Hp |]. split; [exact Hb |]. split; [apply advances_refl |].
      now apply no_new_record.
    + assert (He : evolves t t') by (unfold evolves; rewrite Hpd; auto).
      assert (Hbt : bounded t) by (eapply (Forall_lookup_1 bounded); eassumption).
      split; [exact Hp |]. split; [| split].
      * apply Forall_insert; [exact Hb | eapply evolves_bounded; eassumption].
      * eapply advances_insert; eassumption.
      * apply no_new_record, length_insert.
  - destruct (process_effect f now s) as (Hp & Hlen & Hadv).
    split; [exact Hp |]. split; [| split; [exact Hadv |]].
    + eapply Forall_bounded_advances; eassumption.
    + now apply no_new_record.
Qed.

(** C7, as corrected.  Take a store whose records all have an accrued
    interest at most their total interest, and any sequence of creations,
    status transitions and sweeps in which every creation would store a
    total interest that is not negative.  Then in the resulting store
    every record still has an accrued interest at most its total
    interest; every record of the initial store is still there with the
    same total interest and an accrued interest that has not decreased,
    being either unchanged or equal to the total interest; every
    record created on the way has an accrued interest of 0 or of its
    total interest; and a creation stores its record with an accrued
    interest of 0. *)
Theorem currentInterest_bounded_monotone (ops : list Op) (s : State) :
  Forall bounded (transactions s) ->
  Forall (nonneg_interest (plans s)) ops ->
  let s' := run ops s in
  Forall bounded (transactions s') /\
  (forall i t, transactions s !! i = Some t ->
     exists t', transactions s' !! i = Some t' /\ evolves t t' /\
       Num.le (currentInterest (planData t)) (currentInterest (planData t')) = true) /\
  (forall i t', length (transactions s) <= i -> transactions s' !! i = Some t' ->
     zero_or_total t') /\
  (forall req now s1 i t', length (transactions s1) <= i ->
     transactions (perform (Create req now) s1) !! i = Some t' ->
     currentInterest (planData t') = Fin 0).
Proof.
  intros Hb Hops s'.
  cut (Forall bounded (transactions s') /\
       (forall i t, transactions s !! i = Some t ->
          exists t', transactions s' !! i = Some t' /\ evolves t t' /\
            Num.le (currentInterest (planData t))
                   (currentInterest (planData t')) = true) /\
       (forall i t', length (transactions s) <= i ->
          transactions s' !! i = Some t' -> zero_or_total t')).
  { intros (H1 & H2 & H3). repeat (split; [assumption |]).
    intros req now s1. apply creation_starts_at_zero. }
  subst s'. revert s Hb Hops.
  induction ops as [| o ops IH]; intros s Hb Hops; cbn.
  - split; [exact Hb |]. split.
    + intros i t Ht. exists t. split; [exact Ht |]. split; [apply evolves_refl |].
      eapply le_refl_left. eapply (Forall_lookup_1 bounded); eassumption.
    + intros i t' Hi Ht'. apply lookup_lt_Some in Ht'. lia.
  - apply Forall_cons in Hops as [Ho Hops].
    destruct (perform_effect o s Hb Ho) as (Hp & Hb1 & Hadv & Hnew).
    rewrite <- Hp in Hops.
    destruct (IH (perform o s) Hb1 Hops) as (Hb' & Hold & Hnew').
    split; [exact Hb' |]. split.
    + intros i t Ht. destruct (Hadv i t Ht) as (t1 & Ht1 & He1).
      destruct (Hold i t1 Ht1) as (t' & Ht' & He' & _).
      exists t'. split; [exact Ht' |].
      assert (He : evolves t t') by (eapply evolves_trans; eassumption).
      split; [exact He |]. eapply evolves_monotone; [| exact He].
      exact (Forall_lookup_1 bounded _ _ _ Hb Ht).
    + intros i t' Hi Ht'.
      destruct (decide (i < length (transactions (perform o s)))) as [Hlt | Hge].
      * destruct (lookup_lt_is_Some_2 _ _ Hlt) as [t1 Ht1].
        pose proof (Hnew i t1 Hi Ht1) as Hz.
        destruct (Hold i t1 Ht1) as (t'' & Ht'' & [He1 He2] & _).
        assert (t'' = t') by congruence. subst t''.
        destruct He2 as [He2 | He2]; [left | right]; congruence.
      * apply (Hnew' i t'); [lia | exact Ht'].
Qed.

End InvariantProps.

(** ** Overlapping invocations of the sweep *)

Module InterleavingProps.

Local Open Scope nat_scope.

Lemma holders_app (ts ts' : list Task) : holders (ts ++ ts') = (holders ts + holders ts')%nat.
Proof. unfold holders. now rewrite filter_app, length_app. Qed.

Lemma holders_cons (t : Task) (ts : list Task) :
  holders (t :: ts) = (weight t + holders ts)%nat.
Proof.
  unfold holders, weight. rewrite filter_cons.
  destruct (decide (in_progress t = true)) as [-> | H]; [reflexivity |].
  destruct (in_progress t); [congruence | reflexivity].
Qed.

Lemma holders_insert (ts : list Task) (i : nat) (t t' : Task) :
  ts !! i = Some t ->
  (holders (<[i := t']> ts) + weight t = holders ts + weight t')%nat.
Proof.
  intros Hi. pose proof (lookup_lt_Some _ _ _ Hi) as Hlt.
  rewrite insert_take_drop by assumption.
  set (a := take i ts). set (b := drop (S i) ts).
  assert (E : ts = a ++ t :: b) by (symmetry; apply take_drop_middle, Hi).
  rewrite E at 1.
  rewrite !holders_app, !holders_cons. lia.
Qed.

Lemma turn_returns (f : Faults) (now : Z) (it : nat * Transaction) (s : State) :
  fst (turn (R := unit) (guarded_turn f now it) s) = Val tt.
Proof.
  unfold turn, guarded_turn, try_catch.
  destruct (complete_if_due f now it s) as [[a | r | e] s']; reflexivity.
Qed.

Lemma find_active_flag (f : Faults) (s : State) :
  isProcessing (snd (Transaction_find_active (R := unit) f s)) = isProcessing s.
Proof.
  unfold Transaction_find_active, rejecting. unfold_async. cbn.
  destruct (find_fails f); reflexivity.
Qed.

(** What a stretch does to the flag and to the weight of its invocation. *)
Lemma task_step_flag (t : Task) (s : State) :
  let t' := fst (task_step t s) in
  let s' := snd (task_step t s) in
  (in_progress t = true -> isProcessing s = true ->
   isProcessing s' = in_progress t') /\
  (in_progress t = false ->
   (isProcessing s = true -> isProcessing s' = true /\ in_progress t' = false) /\
   (isProcessing s = false -> isProcessing s' = in_progress t')).
Proof.
  unfold task_step. destruct t as [f now [| | [| it todo] |]]; cbn; split; try discriminate.
  - intros _. destruct (isProcessing s) eqn:E; cbn; split; intros H;
      try discriminate; auto.
  - intros _ Hs. unfold rejecting. unfold_async. destruct (find_fails f); cbn; auto.
  - auto.
  - intros _ Hs. destruct (turn_effect f now (fst it) (snd it) s) as (_ & H & _).
    destruct it. cbn in *. congruence.
  - intros _. split; [auto | intros ->; reflexivity].
Qed.

Lemma exclusive_next (c c' : Config) : exclusive c -> next c c' -> exclusive c'.
Proof.
  unfold exclusive. intros Hc Hn. destruct Hn as [s ts f now | s s' ts i t t' Hi Hstep | s s' ts Hflag];
    cbn [fst snd] in *.
  - rewrite holders_app, holders_cons, Hc. change (holders []) with 0%nat.
    unfold weight. cbn. lia.
  - pose proof (holders_insert ts i t t' Hi) as Hw.
    pose proof (task_step_flag t s) as Hf. rewrite Hstep in Hf. cbn [fst snd] in Hf.
    destruct Hf as [Hf1 Hf2]. unfold weight in Hw.
    destruct (in_progress t) eqn:Et.
    + assert (Hs : isProcessing s = true).
      { destruct (isProcessing s); [reflexivity |].
        pose proof (holders_insert ts i t t Hi) as Hw'.
        assert (Hin : t ∈ filter (fun t => in_progress t = true) ts).
        { apply list_elem_of_filter. split; [exact Et |]. eapply list_elem_of_lookup_2, Hi. }
        unfold holders in Hc. destruct (filter _ ts); [inversion Hin | discriminate Hc]. }
      rewrite Hs in Hc. rewrite (Hf1 eq_refl Hs).
      destruct (in_progress t'); lia.
    + destruct (Hf2 eq_refl) as [Hon Hoff].
      destruct (isProcessing s).
      * destruct (Hon eq_refl) as [-> E]. rewrite E in Hw. lia.
      * rewrite (Hoff eq_refl). destruct (in_progress t'); lia.
  - now rewrite Hflag.
Qed.

Lemma exclusive_reachable (s0 : State) (c : Config) :
  isProcessing s0 = false -> reachable (s0, []) c -> exclusive c.
Proof.
  intros H0 Hr. induction Hr as [| c c' _ IH Hn].
  - unfold exclusive. cbn. now rewrite H0.
  - eapply exclusive_next; eassumption.
Qed.

Lemma holder_sets_flag (s : State) (ts : list Task) (i : nat) (t : Task) :
  exclusive (s, ts) -> ts !! i = Some t -> in_progress t = true ->
  isProcessing s = true.
Proof.
  unfold exclusive, holders. cbn. intros Hc Hi Et.
  destruct (isProcessing s); [reflexivity |].
  assert (Hin : t ∈ filter (fun t => in_progress t = true) ts).
  { apply list_elem_of_filter. split; [exact Et |]. eapply list_elem_of_lookup_2, Hi. }
  destruct (filter _ ts); [inversion Hin | discriminate Hc].
Qed.

(** The request handlers leave the flag alone. *)
Lemma handlers_leave_flag (s : State) :
  (forall req, isProcessing (snd (createPlan req s)) = isProcessing s) /\
  (forall req now, isProcessing (snd (invest req now s)) = isProcessing s) /\
  (forall id status, isProcessing (snd (updateInvestment id status s)) = isProcessing s) /\
  (forall id now, isProcessing (snd (investmentProgress id now s)) = isProcessing s) /\
  (forall now, isProcessing (snd (activeInvestments now s)) = isProcessing s).
Proof.
  split; [| split; [| split; [| split]]].
  - intros req. unfold createPlan, createPlan_body, Plan_findOne_byName, Plan_create.
    unfold_async.
    destruct (_ || _); [reflexivity |].
    destruct (q_name req), (q_description req), (q_roi req), (q_minAmount req),
      (q_duration req), (q_features req); try reflexivity.
    destruct (_ || _); [reflexivity |].
    destruct (Num.lt _ _); [reflexivity |].
    destruct (_ =? _); [reflexivity |]. cbn.
    destruct (head _); reflexivity.
  - intros req now. unfold invest, invest_body. unfold_async. cbn.
    destruct (plans s !! planId req) as [p |]; cbn; [| reflexivity].
    destruct (isActive p); cbn; [| reflexivity].
    destruct (Num.lt (r_amount req) (minAmount p)); cbn; [reflexivity |].
    destruct (users s !! userId req) as [u |]; cbn; [| reflexivity].
    destruct (Num.lt (deposit u) (r_amount req)); cbn; [reflexivity |].
    destruct (calculateEndDate now (duration p)); reflexivity.
  - intros id status. unfold updateInvestment, updateInvestment_body. unfold_async. cbn.
    destruct (transactions s !! id) as [t |]; cbn; [| reflexivity].
    destruct (String.eqb (type t) "investment"); cbn; [| reflexivity].
    destruct (users s !! _) as [u |]; cbn; [| reflexivity].
    destruct (String.eqb status "rejected"), (String.eqb status "approved"),
      (String.eqb status "completed"); reflexivity.
  - intros id now. unfold investmentProgress, investmentProgress_body. unfold_async. cbn.
    destruct (transactions s !! id) as [t |]; cbn; [| reflexivity].
    destruct (String.eqb (type t) "investment"); reflexivity.
  - intros now. reflexivity.
Qed.

(** No two invocations are in progress at once. *)
Lemma at_most_one_in_progress (s0 s : State) (ts : list Task) :
  isProcessing s0 = false -> reachable (s0, []) (s, ts) -> holders ts <= 1.
Proof.
  intros H0 Hr. pose proof (exclusive_reachable s0 (s, ts) H0 Hr) as He.
  unfold exclusive in He. cbn [fst snd] in He. rewrite He.
  destruct (isProcessing s); lia.
Qed.

(** The loop, stretch by stretch, is the loop of the function. *)
Lemma stretches_loop (f : Faults) (now : Z) (l : list (nat * Transaction)) (s : State) :
  stretches (S (length l)) (mkTask f now (Looping l)) s =
    (mkTask f now Returned,
     set_isProcessing false (snd (for_of (R := unit) l (guarded_turn f now) s))).
Proof.
  revert s. induction l as [| it l IH]; intros s; [reflexivity |].
  change (stretches (S (length (it :: l))) (mkTask f now (Looping (it :: l))) s)
    with (stretches (S (length l)) (mkTask f now (Looping l))
            (snd (turn (R := unit) (guarded_turn f now it) s))).
  rewrite IH. cbn. unfold bind.
  pose proof (turn_returns f now it s) as Hv.
  destruct (turn (guarded_turn f now it) s) as [o s1]. cbn in Hv. now subst o.
Qed.

(** An invocation that runs alone does, stretch by stretch, what the
    function does. *)
Lemma stretches_alone (f : Faults) (now : Z) (s : State) :
  exists n, stretches n (mkTask f now Starting) s =
              (mkTask f now Returned, processCompletedInvestments f now s).
Proof.
  rewrite process_unfold. destruct (isProcessing s) eqn:Hs.
  - exists 1%nat. cbn. unfold task_step. cbn. now rewrite Hs.
  - destruct (find_fails f) eqn:Hf.
    + exists 2%nat. cbn. unfold task_step at 1. cbn. rewrite Hs.
      unfold task_step, Transaction_find_active, rejecting. unfold_async. cbn.
      rewrite Hf. reflexivity.
    + exists (S (S (S (length (active_snapshot (queried s)))))).
      change (stretches (S (S (S ?n))) ?t s)
        with (let '(t', s') := task_step t s in stretches (S (S n)) t' s').
      unfold task_step at 1. cbn. rewrite Hs.
      change (stretches (S (S ?n)) ?t ?s1)
        with (let '(t', s') := task_step t s1 in stretches (S n) t' s').
      unfold task_step at 1, Transaction_find_active, rejecting. unfold_async. cbn.
      rewrite Hf. cbn. apply stretches_loop.
Qed.

End InterleavingProps.
Import InterleavingProps.

(** ** The single flight of the sweep *)

Module SweepProps.

Local Open Scope nat_scope.

(** A turn of the loop only adds to the accesses made. *)
Lemma turn_accesses (f : Faults) (now : Z) (it : nat * Transaction) (s : State) :
  exists rest,
    accesses (snd (turn (R := unit) (guarded_turn f now it) s)) = accesses s ++ rest.
Proof.
  destruct it as [id inv].
  unfold turn, guarded_turn, try_catch, complete_if_due, User_findById_for,
    save_both, rejecting.
  unfold_async. cbn.
  destruct (isInvestmentDue _ _); cbn; [| exists []; now rewrite app_nil_r].
  destruct (findUser_fails f id); cbn; [eexists; reflexivity |].
  destruct (users s !! _) as [u |]; cbn; [| eexists; reflexivity].
  destruct (saveUser_fails f id), (saveTransaction_fails f id); cbn;
    try destruct (mail_fails f id); cbn;
    rewrite <- !app_assoc; eexists; reflexivity.
Qed.

Lemma loop_accesses (f : Faults) (now : Z) (l : list (nat * Transaction)) (s0 : State) :
  exists rest,
    accesses (snd (for_of (R := unit) l (guarded_turn f now) s0)) = accesses s0 ++ rest.
Proof.
  apply (for_of_preserves (fun s => exists rest, accesses s = accesses s0 ++ rest)).
  - intros it s _ [rest Hs]. destruct (turn_accesses f now it s) as [rest' ->].
    exists (rest ++ rest'). now rewrite Hs, app_assoc.
  - exists []. now rewrite app_nil_r.
Qed.

(** A sweep that finds the flag set returns at once. *)
Lemma process_skips (f : Faults) (now : Z) (s : State) :
  isProcessing s = true -> processCompletedInvestments f now s = s.
Proof. intros H. now rewrite process_unfold, H. Qed.

(** A sweep that finds the flag clear leaves it clear, whatever fails. *)
Lemma process_releases (f : Faults) (now : Z) (s : State) :
  isProcessing s = false -> isProcessing (processCompletedInvestments f now s) = false.
Proof. intros H. now rewrite process_unfold, H. Qed.

(** And it does query the store. *)
Lemma process_queries (f : Faults) (now : Z) (s : State) :
  isProcessing s = false ->
  exists rest,
    accesses (processCompletedInvestments f now s) =
      accesses s ++ FindActiveInvestments :: rest.
Proof.
  intros H. rewrite process_unfold, H.
  destruct (find_fails f).
  - exists []. reflexivity.
  - destruct (loop_accesses f now (active_snapshot (queried s)) (queried s))
      as [rest Hrest].
    exists rest. cbn [accesses set_isProcessing]. rewrite Hrest.
    cbn. now rewrite <- app_assoc.
Qed.

(** A sweep whose query fails does nothing but the query. *)
Lemma process_query_fails (f : Faults) (now : Z) (s : State) :
  isProcessing s = false -> find_fails f = true ->
  processCompletedInvestments f now s =
    set_accesses (accesses s ++ [FindActiveInvestments]) s.
Proof.
  intros H Hf. rewrite process_unfold, H, Hf. destruct s. cbn in *. now subst.
Qed.

(** C6. An invocation of the sweep that finds the flag set returns the
    state as it is: no query is made, nothing is written, no mail is
    sent.  An invocation that finds the flag clear makes the query and
    leaves the flag clear when it returns, also when the query fails, in
    which case the query is all it did; the invocation after it
    therefore makes its query too.  In every state that overlapping
    invocations and request handlers can reach from a state with a clear
    flag, if an invocation is in progress then the flag is set and the
    first stretch of a new invocation returns without touching the
    state; and the stretch with which an invocation in progress returns
    clears the flag.  An invocation run alone, stretch by stretch, ends
    in the state that the function computes. *)
Theorem sweep_single_flight (f : Faults) (now : Z) (s : State) :
  (isProcessing s = true -> processCompletedInvestments f now s = s) /\
  (isProcessing s = false ->
   let s' := processCompletedInvestments f now s in
   isProcessing s' = false /\
   (exists rest, accesses s' = accesses s ++ FindActiveInvestments :: rest) /\
   (find_fails f = true ->
    s' = set_accesses (accesses s ++ [FindActiveInvestments]) s) /\
   (forall f' now', exists rest,
      accesses (processCompletedInvestments f' now' s') =
        accesses s' ++ FindActiveInvestments :: rest)) /\
  (forall s0 ts i t,
     isProcessing s0 = false -> reachable (s0, []) (s, ts) ->
     ts !! i = Some t -> in_progress t = true ->
     isProcessing s = true /\
     task_step (mkTask f now Starting) s = (mkTask f now Returned, s)) /\
  (forall t,
     in_progress t = true -> isProcessing s = true ->
     phase (fst (task_step t s)) = Returned ->
     isProcessing (snd (task_step t s)) = false) /\
  (exists n, stretches n (mkTask f now Starting) s =
               (mkTask f now Returned, processCompletedInvestments f now s)).
Proof.
  split; [apply process_skips |]. split; [| split; [| split]].
  - intros H s'. subst s'.
    split; [now apply process_releases |].
    split; [now apply process_queries |].
    split; [now apply process_query_fails |].
    intros f' now'. apply process_queries. now apply process_releases.
  - intros s0 ts i t H0 Hr Hi Hp.
    assert (Hs : isProcessing s = true).
    { eapply holder_sets_flag; [| exact Hi | exact Hp].
      eapply exclusive_reachable; eassumption. }
    split; [exact Hs |]. unfold task_step. cbn. now rewrite Hs.
  - intros t Hp Hs Hret.
    destruct (task_step_flag t s) as [Hflag _].
    rewrite (Hflag Hp Hs). unfold in_progress. now rewrite Hret.
  - apply stretches_alone.
Qed.

(** A turn on a record that is due and whose owner is found, when
    nothing fails: both balances are credited, and the record is saved
    completed with its accrued interest at the total interest. *)
Lemma turn_completes (now : Z) (id : nat) (inv : Transaction) (u : User) (s : State) :
  isInvestmentDue (endDate (planData inv)) now = true ->
  users s !! o_id (Store.user inv) = Some u ->
  let s' := snd (turn (R := unit) (guarded_turn no_faults now (id, inv)) s) in
  let u' := set_interest (Num.add (Store.interest u) (pd_interest (planData inv)))
              (set_deposit (Num.add (deposit u) (amount inv)) u) in
  users s' = <[o_id (Store.user inv) := u']> (users s) /\
  transactions s' = <[id := completed inv]> (transactions s) /\
  outbox s' = outbox s ++ [investmentCompleted (email u) (fullName u) (amount inv)
                             (date inv) (plan (planData inv))] /\
  status (completed inv) = "completed"%string /\
  currentInterest (planData (completed inv)) = pd_interest (planData inv).
Proof.
  intros Hdue Hu.
  unfold turn, guarded_turn, try_catch, complete_if_due, User_findById_for,
    save_both, rejecting.
  unfold_async. cbn. rewrite Hdue. cbn. rewrite Hu. cbn. repeat split.
Qed.

End SweepProps.

(** * Further properties *)

(** ** Durations and remaining times *)

Module DurationProps.

Import DateUtilsProps.
Local Open Scope string_scope.
Local Open Scope Z_scope.


Lemma append_cons (c : ascii) (a b : string) : String c a ++ b = String c (a ++ b).
Proof. reflexivity. Qed.
















(** The decimal digits of a number, as the template literal prints
    them. *)
Lemma show_uint (n : Z) :
  0 <= n ->
  exists d, d <> Decimal.Nil /\ show n = NilEmpty.string_of_uint d /\
            Z.of_N (Pos.of_uint d) = n.
Proof.
  intros Hn. destruct n as [| p | p]; [| | lia].
  - exists (Decimal.D0 Decimal.Nil). repeat split. discriminate.
  - exists (Pos.to_uint p). split; [apply Unsigned.to_uint_nonnil |]. split.
    + unfold show. cbn [Z.to_int NilZero.string_of_int].
      pose proof (Unsigned.to_uint_nonnil p) as Hnil.
      destruct (Pos.to_uint p); [contradiction | reflexivity ..].
    + now rewrite Unsigned.of_to.
Qed.









(** The digits of a number start with a digit. *)
Lemma show_head (n : Z) :
  0 <= n -> exists c r, show n = String c r /\ is_digit c = true.
Proof.
  intros Hn. destruct (show_uint n Hn) as (d & Hd & -> & _).
  destruct d; [contradiction | ..]; eexists _, _; split; reflexivity.
Qed.

(** A remaining time is reported as the sentinel exactly when the
    investment is due. *)
Lemma due_sentinel (endDate currentDate : Z) :
  isInvestmentDue endDate currentDate = true <->
  formatTimeRemaining endDate currentDate = "Investment completed"%string.
Proof.
  unfold isInvestmentDue, formatTimeRemaining.
  destruct (Z.geb_spec currentDate endDate) as [Hge | Hlt];
    destruct (Z.leb_spec (endDate - currentDate) 0) as [Hle | Hgt]; try lia.
  - tauto.
  - split; [discriminate |]. intros H. exfalso.
    set (r := endDate - currentDate) in *.
    assert (Hd : 0 <= r / day_ms) by (apply Z.div_pos; [lia | reflexivity]).
    assert (Hh : 0 <= r mod day_ms / hour_ms).
    { apply Z.div_pos; [apply Z.mod_pos_bound | ]; reflexivity. }
    assert (Hm : 0 <= r mod hour_ms / minute_ms).
    { apply Z.div_pos; [apply Z.mod_pos_bound | ]; reflexivity. }
    destruct (show_head _ Hd) as (c1 & r1 & E1 & D1).
    destruct (show_head _ Hh) as (c2 & r2 & E2 & D2).
    destruct (show_head _ Hm) as (c3 & r3 & E3 & D3).
    rewrite E1, E2, E3 in H.
    destruct (r / day_ms >? 0); [| destruct (r mod day_ms / hour_ms >? 0)];
      rewrite append_cons in H; injection H as -> _; discriminate.
Qed.

(** X3. [formatTimeRemaining] answers the sentinel [Investment
    completed] exactly when [isInvestmentDue] holds at the same two
    dates. *)
Theorem due_iff_sentinel (endDate currentDate : Z) :
  isInvestmentDue endDate currentDate = true <->
  formatTimeRemaining endDate currentDate = "Investment completed"%string.
Proof. apply due_sentinel. Qed.

End DurationProps.

(** ** The range of the progress projection *)

Module PercentProps.

Local Open Scope Q_scope.

(** The percentage of a non-negative accrued interest over a positive
    total. *)
Lemma progress_percent_range (c t : Q) :
  0 <= c -> 0 < t ->
  exists x, progress_percent (Fin c) (Fin t) = Fin x /\ 0 <= x <= 100 /\
            (c == t -> x == 100) /\ (c == 0 -> x == 0).
Proof.
  intros Hc Ht. unfold progress_percent.
  rewrite div_Fin by lra. unfold Num.hundred. cbn [Num.mul Num.min].
  assert (H0 : 0 <= c / t * 100).
  { apply Qmult_le_0_compat; [| lra].
    apply Qle_shift_div_l; [exact Ht | lra]. }
  destruct (Num.lt (Fin 100) (Fin (c / t * 100))) eqn:E.
  - apply lt_Fin in E. exists 100. split; [reflexivity |]. split; [lra |]. split.
    + reflexivity.
    + intros Hz. rewrite Hz in E. unfold Qdiv in E. lra.
  - apply lt_Fin_false in E. exists (c / t * 100). split; [reflexivity |].
    split; [lra |]. split.
    + intros ->. field. lra.
    + intros ->. unfold Qdiv. lra.
Qed.

End PercentProps.

Module ProgressRange.

Import DateUtilsProps InterestProps DurationProps PercentProps.
Local Open Scope string_scope.
Local Open Scope Z_scope.

(** X4. [GET /investment/:id/progress] on an investment with a positive
    total interest and a start before its end: the percentage is a
    number from 0 to 100, it is 0 up to the start and 100 from the end
    on; from the end on the status reads [ready_to_complete], the accrued
    interest is the total and the remaining time is the sentinel, before
    it the stored status is shown.  Nothing is stored. *)
Theorem progress_projection (s : State) (id : nat) (t : Transaction) (q : Q) (now : Z) :
  transactions s !! id = Some t ->
  type t = "investment" ->
  pd_interest (planData t) = Fin q ->
  (0 < q)%Q ->
  startDate (planData t) < endDate (planData t) ->
  exists p x,
    fst (investmentProgress id now s) = mkResponse 200 (ProgressOf p) /\
    progress p = Fin x /\ (0 <= x <= 100)%Q /\
    (now <= startDate (planData t) -> (x == 0)%Q) /\
    (endDate (planData t) <= now ->
       (x == 100)%Q /\ p_currentInterest p = Fin q /\
       p_status p = "ready_to_complete" /\ isCompleted p = true /\
       timeRemaining p = "Investment completed") /\
    (now < endDate (planData t) ->
       p_status p = status t /\ isCompleted p = false /\
       timeRemaining p <> "Investment completed") /\
    plans (snd (investmentProgress id now s)) = plans s /\
    users (snd (investmentProgress id now s)) = users s /\
    transactions (snd (investmentProgress id now s)) = transactions s /\
    outbox (snd (investmentProgress id now s)) = outbox s.
Proof.
  intros Ht Hty Hq Hpos Hterm.
  unfold investmentProgress, investmentProgress_body. unfold_async. cbn.
  rewrite Ht, Hty. cbn. rewrite Hq.
  set (sd := startDate (planData t)) in *. set (ed := endDate (planData t)) in *.
  destruct (value q sd ed (Qlt_le_weak _ _ Hpos) Hterm now) as (c & Hc & Hc0 & _).
  rewrite Hc.
  destruct (progress_percent_range c q Hc0 Hpos) as (x & Hx & Hr & H100 & H0).
  eexists _, x. split; [reflexivity |]. cbn.
  split; [exact Hx |]. split; [exact Hr |]. split; [| split; [| split]].
  - intros Hn. apply H0.
    rewrite (before_start q sd ed now Hn) in Hc. now injection Hc as <-.
  - intros Hn.
    rewrite (after_end q sd ed Hterm now Hn) in Hc. injection Hc as <-.
    assert (Hdue : isInvestmentDue ed now = true).
    { unfold isInvestmentDue. destruct (Z.geb_spec now ed); [reflexivity | lia]. }
    rewrite Hdue. split; [apply H100; reflexivity |]. split; [reflexivity |].
    split; [reflexivity |]. split; [reflexivity |]. now apply due_sentinel.
  - intros Hn.
    assert (Hdue : isInvestmentDue ed now = false).
    { unfold isInvestmentDue. destruct (Z.geb_spec now ed); [lia | reflexivity]. }
    rewrite Hdue. split; [reflexivity |]. split; [reflexivity |].
    intros E. apply due_sentinel in E. congruence.
  - repeat split; reflexivity.
Qed.

End ProgressRange.

(** ** What a sweep leaves behind *)

Module SweepOutcome.

Import LifecycleProps SweepEffects InterleavingProps SweepProps InvestProps StatusProps.
Local Open Scope nat_scope.

(** What one turn of the loop does to the three collections. *)
Lemma turn_outcome (f : Faults) (now : Z) (id : nat) (inv : Transaction) (s : State) :
  let s' := snd (turn (R := unit) (guarded_turn f now (id, inv)) s) in
  let uid := o_id (Store.user inv) in
  match reached f now (users s) (id, inv) with
  | None =>
      users s' = users s /\ transactions s' = transactions s /\ outbox s' = outbox s
  | Some u =>
      users s' = (if saveUser_fails f id then users s
                  else <[uid := paid inv u]> (users s)) /\
      transactions s' = (if saveTransaction_fails f id then transactions s
                         else <[id := completed inv]> (transactions s)) /\
      outbox s' = (if saveUser_fails f id || saveTransaction_fails f id
                      || mail_fails f id
                   then outbox s
                   else outbox s ++ [completion_mail inv u])
  end.
Proof.
  unfold reached, turn, guarded_turn, try_catch, complete_if_due, User_findById_for,
    save_both, rejecting.
  unfold_async. cbn.
  destruct (isInvestmentDue _ _); cbn; [| auto].
  destruct (findUser_fails f id); cbn; [auto |].
  destruct (users s !! _) as [u |]; cbn; [| auto].
  destruct (saveUser_fails f id), (saveTransaction_fails f id); cbn; auto;
    destruct (mail_fails f id); cbn; auto.
Qed.

(** A turn keeps the set of users. *)
Lemma turn_users_dom (f : Faults) (now : Z) (it : nat * Transaction) (s : State)
    (k : nat) :
  is_Some (users (snd (turn (R := unit) (guarded_turn f now it) s)) !! k) <->
  is_Some (users s !! k).
Proof.
  destruct it as [id inv].
  pose proof (turn_outcome f now id inv s) as H. cbv zeta in H.
  destruct (reached f now (users s) (id, inv)) as [u |] eqn:Hr.
  - destruct H as (-> & _). destruct (saveUser_fails f id); [reflexivity |].
    destruct (decide (o_id (Store.user inv) = k)) as [<- | Hne].
    + rewrite lookup_insert_eq. unfold reached in Hr. cbn [fst snd] in Hr.
      destruct (_ && _); [| discriminate]. rewrite Hr. split; eauto.
    + now rewrite lookup_insert_ne.
  - destruct H as (-> & _). reflexivity.
Qed.

(** Whether a turn gets hold of an owner depends on the set of users
    only. *)
Lemma reached_dom (f : Faults) (now : Z) (us us' : gmap nat User)
    (it : nat * Transaction) :
  (forall k, is_Some (us' !! k) <-> is_Some (us !! k)) ->
  is_Some (reached f now us' it) <-> is_Some (reached f now us it).
Proof.
  intros H. unfold reached. destruct (_ && _); [apply H | reflexivity].
Qed.

Lemma written_dom (f : Faults) (now : Z) (us us' : gmap nat User)
    (it : nat * Transaction) :
  (forall k, is_Some (us' !! k) <-> is_Some (us !! k)) ->
  written f now us' it = written f now us it.
Proof.
  intros H. unfold written. pose proof (reached_dom f now us us' it H) as Hd.
  destruct (reached f now us' it), (reached f now us it); try reflexivity.
  - destruct Hd as [Hd _]. destruct (Hd ltac:(eauto)) as [? [=]].
  - destruct Hd as [_ Hd]. destruct (Hd ltac:(eauto)) as [? [=]].
Qed.

(** The loop as a function on states. *)
Lemma for_of_cons (f : Faults) (now : Z) (it : nat * Transaction)
    (l : list (nat * Transaction)) (s : State) :
  snd (for_of (R := unit) (it :: l) (guarded_turn f now) s) =
  snd (for_of (R := unit) l (guarded_turn f now)
         (snd (turn (R := unit) (guarded_turn f now it) s))).
Proof.
  cbn [for_of]. unfold bind.
  pose proof (turn_returns f now it s) as Hv.
  destruct (turn (guarded_turn f now it) s) as [o s1]. cbn in Hv. now subst o.
Qed.

(** The loop leaves alone the records it does not visit. *)
Lemma loop_other_records (f : Faults) (now : Z) (l : list (nat * Transaction))
    (s : State) (j : nat) :
  j ∉ l.*1 ->
  transactions (snd (for_of (R := unit) l (guarded_turn f now) s)) !! j =
    transactions s !! j.
Proof.
  revert s. induction l as [| [id inv] l IH]; intros s Hj; [reflexivity |].
  rewrite for_of_cons. cbn [fmap list_fmap fst] in Hj.
  apply not_elem_of_cons in Hj as [Hne Hj].
  rewrite IH by assumption.
  pose proof (turn_outcome f now id inv s) as H. cbv zeta in H.
  destruct (reached f now (users s) (id, inv)).
  - destruct H as (_ & -> & _). destruct (saveTransaction_fails f id); [reflexivity |].
    now rewrite list_lookup_insert_ne.
  - now destruct H as (_ & -> & _).
Qed.

Lemma loop_users_dom (f : Faults) (now : Z) (l : list (nat * Transaction))
    (s : State) (k : nat) :
  is_Some (users (snd (for_of (R := unit) l (guarded_turn f now) s)) !! k) <->
  is_Some (users s !! k).
Proof.
  revert s. induction l as [| it l IH]; intros s; [reflexivity |].
  rewrite for_of_cons, IH. apply turn_users_dom.
Qed.

(** The loop saves as completed exactly the records it visits whose
    owner it gets hold of and whose save does not fail. *)
Lemma loop_visited_record (f : Faults) (now : Z) (l : list (nat * Transaction))
    (s : State) (id : nat) (inv : Transaction) :
  NoDup l.*1 -> (id, inv) ∈ l -> transactions s !! id = Some inv ->
  transactions (snd (for_of (R := unit) l (guarded_turn f now) s)) !! id =
    Some (if written f now (users s) (id, inv) then completed inv else inv).
Proof.
  revert s. induction l as [| [id0 inv0] l IH]; intros s Hnd Hin Hs.
  { inversion Hin. }
  rewrite for_of_cons. cbn [fmap list_fmap fst] in Hnd.
  apply NoDup_cons in Hnd as [Hfresh Hnd].
  apply elem_of_cons in Hin as [[= <- <-] | Hin].
  - rewrite loop_other_records by assumption.
    pose proof (turn_outcome f now id inv s) as H. cbv zeta in H.
    unfold written. cbn [fst].
    destruct (reached f now (users s) (id, inv)).
    + destruct H as (_ & -> & _). destruct (saveTransaction_fails f id); [exact Hs |].
      cbn [negb]. apply list_lookup_insert_eq. eapply lookup_lt_Some, Hs.
    + now destruct H as (_ & -> & _).
  - assert (Hne : id0 <> id).
    { intros ->. apply Hfresh. apply list_elem_of_fmap. now exists (id, inv). }
    rewrite IH; [| assumption | assumption |].
    + f_equal. rewrite (written_dom f now (users s)); [reflexivity |].
      intros k. apply turn_users_dom.
    + pose proof (turn_outcome f now id0 inv0 s) as H. cbv zeta in H.
      destruct (reached f now (users s) (id0, inv0)).
      * destruct H as (_ & -> & _).
        destruct (saveTransaction_fails f id0); [exact Hs |].
        now rewrite list_lookup_insert_ne.
      * now destruct H as (_ & -> & _).
Qed.

(** The snapshot names each record once. *)
Lemma snapshot_NoDup (s : State) : NoDup (active_snapshot s).*1.
Proof.
  unfold active_snapshot.
  apply (sublist_NoDup _ (imap (fun i t => (i, t)) (transactions s)).*1).
  - rewrite fmap_imap.
    rewrite (imap_ext _ (fun j _ => id j)) by reflexivity.
    rewrite imap_seq_0, list_fmap_id. apply NoDup_seq.
  - apply fmap_sublist, sublist_filter.
Qed.

Lemma snapshot_elem (s : State) (id : nat) (inv : Transaction) :
  (id, inv) ∈ active_snapshot s <->
  transactions s !! id = Some inv /\ is_active_investment inv = true.
Proof.
  unfold active_snapshot. rewrite list_elem_of_filter, elem_of_lookup_imap. split.
  - intros [Ha (i & t & [= -> ->] & Hi)]. auto.
  - intros [Hi Ha]. split; [exact Ha |]. eauto.
Qed.

Lemma reached_None_dom (f : Faults) (now : Z) (us us' : gmap nat User)
    (it : nat * Transaction) :
  (forall k, is_Some (us' !! k) <-> is_Some (us !! k)) ->
  reached f now us it = None -> reached f now us' it = None.
Proof.
  intros H Hn. pose proof (reached_dom f now us us' it H) as Hd.
  destruct (reached f now us' it) eqn:E; [| reflexivity].
  destruct Hd as [Hd _]. rewrite Hn in Hd. destruct (Hd ltac:(eauto)) as [? [=]].
Qed.

(** The loop leaves alone the users who own no record that it visits
    and whose owner it gets hold of. *)
Lemma loop_other_users (f : Faults) (now : Z) (l : list (nat * Transaction))
    (s : State) (uid : nat) :
  (forall it, it ∈ l -> o_id (Store.user (snd it)) = uid ->
              reached f now (users s) it = None) ->
  users (snd (for_of (R := unit) l (guarded_turn f now) s)) !! uid = users s !! uid.
Proof.
  revert s. induction l as [| [id inv] l IH]; intros s Hl; [reflexivity |].
  rewrite for_of_cons.
  pose proof (turn_outcome f now id inv s) as H. cbv zeta in H.
  rewrite IH.
  - destruct (reached f now (users s) (id, inv)) eqn:Hr.
    + destruct H as (-> & _). destruct (saveUser_fails f id); [reflexivity |].
      apply lookup_insert_ne. intros E.
      specialize (Hl (id, inv) (list_elem_of_here _ _) E). congruence.
    + now destruct H as (-> & _).
  - intros it Hit Ho. eapply reached_None_dom; [| apply Hl; [now right | exact Ho]].
    intros k. apply turn_users_dom.
Qed.

(** The loop does nothing to the collections when it gets hold of no
    owner. *)
Lemma loop_inert (f : Faults) (now : Z) (l : list (nat * Transaction)) (s : State) :
  (forall it, it ∈ l -> reached f now (users s) it = None) ->
  let s' := snd (for_of (R := unit) l (guarded_turn f now) s) in
  users s' = users s /\ transactions s' = transactions s /\ outbox s' = outbox s.
Proof.
  revert s. induction l as [| [id inv] l IH]; intros s Hl; [now cbn |].
  cbv zeta. rewrite for_of_cons.
  pose proof (turn_outcome f now id inv s) as H. cbv zeta in H.
  rewrite (Hl (id, inv) (list_elem_of_here _ _)) in H. destruct H as (Hu & Ht & Ho).
  destruct (IH (snd (turn (R := unit) (guarded_turn f now (id, inv)) s)))
    as (Hu' & Ht' & Ho').
  - intros it Hit. rewrite Hu. apply Hl. now right.
  - cbv zeta in Hu', Ht', Ho'. rewrite Hu', Ht', Ho'. auto.
Qed.

(** The records after a sweep that makes its query. *)
Lemma process_records (f : Faults) (now : Z) (s : State) :
  isProcessing s = false -> find_fails f = false ->
  transactions (processCompletedInvestments f now s) =
    imap (swept f now (users s)) (transactions s).
Proof.
  intros Hflag Hfind. rewrite process_unfold, Hflag, Hfind.
  cbn [transactions set_isProcessing].
  apply list_eq. intros j. rewrite list_lookup_imap.
  destruct (transactions s !! j) as [inv |] eqn:Hj; cbn [fmap option_fmap option_map].
  - unfold swept.
    destruct (is_active_investment inv) eqn:Ha; cbn [andb].
    + rewrite (loop_visited_record f now _ (queried s) j inv).
      * reflexivity.
      * apply snapshot_NoDup.
      * apply snapshot_elem. auto.
      * exact Hj.
    + rewrite loop_other_records; [exact Hj |].
      intros Hin. apply list_elem_of_fmap in Hin as ([j' inv'] & -> & Hin).
      apply snapshot_elem in Hin as [Hl Ha']. cbn in Hl, Hj.
      rewrite Hj in Hl. injection Hl as <-. congruence.
  - rewrite loop_other_records; [exact Hj |].
    intros Hin. apply list_elem_of_fmap in Hin as ([j' inv'] & -> & Hin).
    apply snapshot_elem in Hin as [Hl _]. cbn in Hl, Hj. congruence.
Qed.

(** X5. A sweep that finds the flag clear and whose query succeeds
    completes exactly the active investments that are due, whose owner
    it finds and whose save succeeds; every other record is left as it
    is, and none is added or removed. *)
Theorem sweep_records (f : Faults) (now : Z) (s : State) :
  isProcessing s = false -> find_fails f = false ->
  transactions (processCompletedInvestments f now s) =
    imap (swept f now (users s)) (transactions s).
Proof. apply process_records. Qed.

(** A sweep keeps the set of users. *)
Lemma sweep_users_dom (f : Faults) (now : Z) (s : State) (k : nat) :
  is_Some (users (processCompletedInvestments f now s) !! k) <->
  is_Some (users s !! k).
Proof.
  rewrite process_unfold. destruct (isProcessing s); [reflexivity |].
  destruct (find_fails f); [reflexivity |].
  cbn [users set_isProcessing]. rewrite loop_users_dom. reflexivity.
Qed.

(** X6. A sweep leaves alone every user who owns no active investment
    that is due, whatever fails. *)
Theorem sweep_other_users (f : Faults) (now : Z) (s : State) (uid : nat) :
  (forall id inv, transactions s !! id = Some inv ->
     is_active_investment inv = true -> o_id (Store.user inv) = uid ->
     isInvestmentDue (endDate (planData inv)) now = false) ->
  users (processCompletedInvestments f now s) !! uid = users s !! uid.
Proof.
  intros H. rewrite process_unfold. destruct (isProcessing s); [reflexivity |].
  destruct (find_fails f); [reflexivity |].
  cbn [users set_isProcessing]. rewrite loop_other_users; [reflexivity |].
  intros [id inv] Hin Ho. apply snapshot_elem in Hin as [Hl Ha].
  unfold reached. cbn [fst snd] in *. now rewrite (H id inv Hl Ha Ho).
Qed.

Lemma completed_not_active (inv : Transaction) :
  is_active_investment (completed inv) = false.
Proof.
  unfold is_active_investment, completed. cbn.
  destruct (String.eqb (type inv) "investment"); reflexivity.
Qed.

(** After a sweep in which nothing fails, a record that is still active
    was not due or has no owner. *)
Lemma swept_still_active (now : Z) (s : State) (id : nat) (inv' : Transaction) :
  isProcessing s = false ->
  transactions (processCompletedInvestments no_faults now s) !! id = Some inv' ->
  is_active_investment inv' = true ->
  transactions s !! id = Some inv' /\
  reached no_faults now (users s) (id, inv') = None.
Proof.
  intros Hflag Hl Ha. rewrite process_records in Hl by auto.
  rewrite list_lookup_imap in Hl.
  destruct (transactions s !! id) as [inv |] eqn:Hi; [| discriminate].
  cbn in Hl. injection Hl as <-. unfold swept in *.
  destruct (is_active_investment inv && written no_faults now (users s) (id, inv))
    eqn:E.
  - now rewrite completed_not_active in Ha.
  - split; [reflexivity |]. rewrite Ha in E. cbn [andb] in E.
    unfold written in E. now destruct (reached no_faults now (users s) (id, inv)).
Qed.

Lemma due_earlier (e now now' : Z) :
  (now' <= now)%Z -> isInvestmentDue e now = false -> isInvestmentDue e now' = false.
Proof.
  unfold isInvestmentDue. intros Hle H.
  destruct (Z.geb_spec now e); [discriminate |].
  destruct (Z.geb_spec now' e); [lia | reflexivity].
Qed.

(** X7. Sweeping again, at the same date or an earlier one, after a
    sweep in which nothing failed changes no balance and no record and
    sends no mail, whatever fails the second time. *)
Theorem sweep_idempotent (f' : Faults) (now now' : Z) (s : State) :
  isProcessing s = false -> (now' <= now)%Z ->
  let s1 := processCompletedInvestments no_faults now s in
  let s2 := processCompletedInvestments f' now' s1 in
  users s2 = users s1 /\ transactions s2 = transactions s1 /\ outbox s2 = outbox s1.
Proof.
  intros Hflag Hle s1 s2. subst s2.
  assert (Hflag1 : isProcessing s1 = false) by now apply process_releases.
  rewrite process_unfold, Hflag1.
  destruct (find_fails f'); [auto |].
  cbn [users transactions outbox set_isProcessing].
  apply (loop_inert f' now' (active_snapshot (queried s1)) (queried s1)).
  intros [id inv'] Hin. apply snapshot_elem in Hin as [Hl Ha].
  change (transactions (queried s1)) with (transactions s1) in Hl.
  change (users (queried s1)) with (users s1).
  destruct (swept_still_active now s id inv' Hflag Hl Ha) as [Hl0 Hr].
  unfold reached in *. cbn [fst snd] in *.
  destruct (isInvestmentDue (endDate (planData inv')) now) eqn:Hdue; cbn [andb] in Hr.
  - cbn in Hr.
    destruct (isInvestmentDue _ now' && negb (findUser_fails f' id)); [| reflexivity].
    destruct (users s1 !! o_id (Store.user inv')) eqn:E; [| reflexivity].
    assert (Hs : is_Some (users s !! o_id (Store.user inv'))).
    { apply (sweep_users_dom no_faults now s). fold s1. rewrite E. eauto. }
    rewrite Hr in Hs. destruct Hs as [? [=]].
  - now rewrite (due_earlier _ now now' Hle Hdue).
Qed.

(** X8. After a sweep in which nothing fails, the records that are
    still active and due are those whose owner is missing; when every
    record has its owner, the listing of active investments at that date
    counts none that is ready to complete. *)
Theorem sweep_leaves_orphans (now : Z) (s : State) :
  isProcessing s = false ->
  let s1 := processCompletedInvestments no_faults now s in
  (forall id inv, transactions s1 !! id = Some inv ->
     is_active_investment inv = true ->
     isInvestmentDue (endDate (planData inv)) now = true ->
     users s1 !! o_id (Store.user inv) = None) /\
  ((forall id inv, transactions s !! id = Some inv ->
      is_Some (users s !! o_id (Store.user inv))) ->
   exists l total,
     fst (activeInvestments now s1) = mkResponse 200 (ActiveInvestments l total 0)).
Proof.
  intros Hflag s1.
  assert (Horph : forall id inv, transactions s1 !! id = Some inv ->
            is_active_investment inv = true ->
            isInvestmentDue (endDate (planData inv)) now = true ->
            users s !! o_id (Store.user inv) = None).
  { intros id inv Hl Ha Hdue.
    destruct (swept_still_active now s id inv Hflag Hl Ha) as [_ Hr].
    unfold reached in Hr. cbn [fst snd] in Hr. now rewrite Hdue in Hr. }
  split.
  - intros id inv Hl Ha Hdue.
    destruct (users s1 !! o_id (Store.user inv)) eqn:E; [| reflexivity].
    assert (Hs : is_Some (users s !! o_id (Store.user inv))).
    { apply (sweep_users_dom no_faults now s). fold s1. rewrite E. eauto. }
    rewrite (Horph id inv Hl Ha Hdue) in Hs. destruct Hs as [? [=]].
  - intros Hown. unfold activeInvestments, activeInvestments_body. unfold_async. cbn.
    eexists _, _. f_equal. f_equal.
    match goal with |- length ?x = 0 => assert (Hnil : x = []); [| now rewrite Hnil] end.
    match goal with |- ?x = [] => destruct x as [| w ws] eqn:E end; [reflexivity |].
    assert (Hw : w ∈ w :: ws) by apply list_elem_of_here.
    rewrite <- E in Hw. apply list_elem_of_filter in Hw as [Hdue Hw].
    apply list_elem_of_In, in_map_iff in Hw as (inv & <- & Hin).
    apply list_elem_of_In, list_elem_of_filter in Hin as [Ha Hin].
    apply list_elem_of_lookup in Hin as [id Hl].
    cbn in Hdue.
    destruct (swept_still_active now s id inv Hflag Hl Ha) as [Hl0 _].
    destruct (Hown id inv Hl0) as [u Hu].
    rewrite (Horph id inv Hl Ha Hdue) in Hu. discriminate.
Qed.

(** A sweep passes over every record that is not an active investment. *)
Lemma sweep_skips_inactive (f : Faults) (now : Z) (s : State) (id : nat)
    (t : Transaction) :
  transactions s !! id = Some t -> is_active_investment t = false ->
  transactions (processCompletedInvestments f now s) !! id = Some t.
Proof.
  intros Ht Ha. rewrite process_unfold.
  destruct (isProcessing s); [exact Ht |].
  destruct (find_fails f); [exact Ht |].
  cbn [transactions set_isProcessing].
  rewrite loop_other_records; [exact Ht |].
  intros Hin. apply list_elem_of_fmap in Hin as ([j' inv'] & -> & Hin).
  apply snapshot_elem in Hin as [Hl Ha']. cbn in Hl, Ht.
  rewrite Ht in Hl. injection Hl as <-. congruence.
Qed.

(** The loop pays once the owner of a record it gets hold of, when the
    owner has no other record that it gets hold of. *)
Lemma loop_pays_once (f : Faults) (now : Z) (l : list (nat * Transaction))
    (s : State) (id : nat) (inv : Transaction) (u : User) :
  NoDup l.*1 -> (id, inv) ∈ l ->
  reached f now (users s) (id, inv) = Some u ->
  saveUser_fails f id = false ->
  (forall it, it ∈ l -> fst it <> id ->
     o_id (Store.user (snd it)) = o_id (Store.user inv) ->
     reached f now (users s) it = None) ->
  users (snd (for_of (R := unit) l (guarded_turn f now) s))
    !! o_id (Store.user inv) = Some (paid inv u).
Proof.
  revert s. induction l as [| [id0 inv0] l IH]; intros s Hnd Hin Hr Hsave Hothers.
  { inversion Hin. }
  rewrite for_of_cons. cbn [fmap list_fmap fst] in Hnd.
  apply NoDup_cons in Hnd as [Hfresh Hnd].
  pose proof (turn_outcome f now id0 inv0 s) as H. cbv zeta in H.
  apply elem_of_cons in Hin as [[= <- <-] | Hin].
  - rewrite Hr, Hsave in H. destruct H as (Hu & _).
    rewrite loop_other_users.
    + rewrite Hu. apply lookup_insert_eq.
    + intros [j t] Hit Ho. eapply reached_None_dom.
      * intros k. apply turn_users_dom.
      * apply Hothers; [now right | | exact Ho].
        cbn. intros ->. apply Hfresh. apply list_elem_of_fmap. now exists (id, t).
  - assert (Hne : id0 <> id).
    { intros ->. apply Hfresh. apply list_elem_of_fmap. now exists (id, inv). }
    assert (Hsame : users (snd (turn (R := unit) (guarded_turn f now (id0, inv0)) s))
                      !! o_id (Store.user inv) = users s !! o_id (Store.user inv)).
    { destruct (reached f now (users s) (id0, inv0)) eqn:Hr0.
      - destruct H as (-> & _). destruct (saveUser_fails f id0); [reflexivity |].
        apply lookup_insert_ne. intros E.
        rewrite (Hothers (id0, inv0) (list_elem_of_here _ _) Hne E) in Hr0.
        discriminate.
      - now destruct H as (-> & _). }
    apply IH; try assumption.
    + unfold reached in *. cbn [fst snd] in *.
      destruct (_ && _); [| discriminate]. now rewrite Hsame.
    + intros it Hit Hni Ho. eapply reached_None_dom.
      * intros k. apply turn_users_dom.
      * apply Hothers; [now right | exact Hni | exact Ho].
Qed.

(** X9. An investment that is created and then swept once it is due,
    with nothing failing: the amount that was debited is credited to
    the deposit, the interest balance has grown by the total interest of
    the record, and the record is completed with its accrued interest at
    the total. *)
Theorem invest_then_sweep (req : InvestRequest) (now now' : Z) (s : State)
    (p : Plan) (u : User) (a d : Q) (e : Z) :
  isProcessing s = false ->
  plans s !! planId req = Some p -> isActive p = true ->
  r_amount req = Fin a -> Num.lt (Fin a) (minAmount p) = false ->
  users s !! userId req = Some u -> deposit u = Fin d -> (a <= d)%Q ->
  calculateEndDate now (duration p) = Some e -> (e <= now')%Z ->
  (forall id t, transactions s !! id = Some t ->
     is_active_investment t = true -> o_id (Store.user t) = userId req ->
     isInvestmentDue (endDate (planData t)) now' = false) ->
  let s1 := snd (invest req now s) in
  let s2 := processCompletedInvestments no_faults now' s1 in
  let total := or_default (r_interest req)
                 (Num.div (Num.mul (Fin a) (roi p)) Num.hundred) in
  exists u2 t2,
    users s2 !! userId req = Some u2 /\
    deposit u2 = Num.add (Num.sub (Fin d) (Fin a)) (Fin a) /\
    Store.interest u2 = Num.add (Store.interest u) total /\
    transactions s2 !! length (transactions s) = Some t2 /\
    status t2 = "completed"%string /\
    currentInterest (planData t2) = total /\
    pd_interest (planData t2) = total.
Proof.
  intros Hflag Hp Hact Ha Hmin Hu Hd Had He Hdue Hothers s1 s2 total.
  assert (Hdep : Num.lt (deposit u) (r_amount req) = false).
  { rewrite Hd, Ha. now apply Qlt_bool_false. }
  rewrite <- Ha in Hmin.
  destruct (handlers_leave_flag s) as (_ & Hfl & _).
  destruct (invest_debits req now s p u Hp Hact Hmin Hu Hdep) as (Hus & _ & Hend).
  rewrite He in Hend. destruct Hend as (_ & Hts & _).
  fold s1 in Hus, Hts.
  set (u1 := set_deposit (Num.sub (deposit u) (r_amount req)) u) in *.
  set (t1 := created req now e p u1) in *.
  set (id := length (transactions s)).
  assert (Hflag1 : isProcessing s1 = false) by (unfold s1; now rewrite Hfl).
  assert (Hl1 : transactions s1 !! id = Some t1).
  { rewrite Hts. unfold id. now rewrite lookup_app_r, Nat.sub_diag by lia. }
  assert (Hu1 : users s1 !! userId req = Some u1).
  { rewrite Hus. apply lookup_insert_eq. }
  assert (Ha1 : is_active_investment t1 = true) by reflexivity.
  assert (Hr1 : reached no_faults now' (users s1) (id, t1) = Some u1).
  { unfold reached. cbn [fst snd]. change (endDate (planData t1)) with e.
    unfold isInvestmentDue. destruct (Z.geb_spec now' e); [| lia]. exact Hu1. }
  exists (paid t1 u1), (completed t1).
  split.
  - unfold s2. rewrite process_unfold, Hflag1. cbn [find_fails no_faults].
    cbn [users set_isProcessing].
    apply (loop_pays_once no_faults now' (active_snapshot (queried s1)) (queried s1)
             id t1 u1).
    + apply snapshot_NoDup.
    + apply snapshot_elem. auto.
    + exact Hr1.
    + reflexivity.
    + intros [j t] Hin Hne Ho. apply snapshot_elem in Hin as [Hl Hact'].
      cbn [fst snd] in *.
      change (transactions (queried s1)) with (transactions s1) in Hl.
      rewrite Hts in Hl. apply lookup_app_Some in Hl as [Hl | [Hge Hl]].
      * unfold reached. cbn [fst snd].
        now rewrite (Hothers j t Hl Hact' Ho).
      * apply list_lookup_singleton_Some in Hl as [Hj _]. unfold id in Hne. lia.
  - split.
    + unfold paid, u1. cbn. rewrite Hd, Ha. reflexivity.
    + split; [unfold paid, u1, t1, created; cbn; now rewrite Ha |].
      split.
      * unfold s2. rewrite process_records by auto. rewrite list_lookup_imap, Hl1.
        cbn. unfold swept, written. rewrite Hr1, Ha1. reflexivity.
      * unfold t1, created, total. cbn. now rewrite Ha.
Qed.

(** The loop leaves a user as it is when, for each record of the user
    that it gets hold of, the save of the user fails. *)
Lemma loop_unpaid (f : Faults) (now : Z) (l : list (nat * Transaction))
    (s : State) (uid : nat) :
  (forall it, it ∈ l -> o_id (Store.user (snd it)) = uid ->
              reached f now (users s) it = None \/ saveUser_fails f (fst it) = true) ->
  users (snd (for_of (R := unit) l (guarded_turn f now) s)) !! uid = users s !! uid.
Proof.
  revert s. induction l as [| [id inv] l IH]; intros s Hl; [reflexivity |].
  rewrite for_of_cons.
  pose proof (turn_outcome f now id inv s) as H. cbv zeta in H.
  rewrite IH.
  - destruct (reached f now (users s) (id, inv)) eqn:Hr.
    + destruct H as (-> & _). destruct (saveUser_fails f id) eqn:Hs; [reflexivity |].
      apply lookup_insert_ne. intros E.
      destruct (Hl (id, inv) (list_elem_of_here _ _) E) as [Hn | Hn]; cbn in Hn; congruence.
    + now destruct H as (-> & _).
  - intros it Hit Ho. destruct (Hl it (list_elem_of_further _ _ _ Hit) Ho) as [Hn | Hn];
      [left | now right].
    eapply reached_None_dom; [| exact Hn].
    intros k. apply turn_users_dom.
Qed.

(** X10. When, for an active investment that is due, the save of the
    owner fails in a sweep and the save of the record succeeds, the
    record is completed while the owner, who has no other active
    investment that is due, keeps the balances as they were; the record
    stays completed in every later sweep, so that none pays it. *)
Theorem failed_user_save_loses_payout (f : Faults) (now : Z) (s : State) (id : nat)
    (inv : Transaction) (u : User) :
  isProcessing s = false -> find_fails f = false ->
  transactions s !! id = Some inv -> is_active_investment inv = true ->
  isInvestmentDue (endDate (planData inv)) now = true ->
  findUser_fails f id = false ->
  users s !! o_id (Store.user inv) = Some u ->
  saveUser_fails f id = true -> saveTransaction_fails f id = false ->
  (forall j t, j <> id -> transactions s !! j = Some t ->
     is_active_investment t = true -> o_id (Store.user t) = o_id (Store.user inv) ->
     isInvestmentDue (endDate (planData t)) now = false) ->
  let s1 := processCompletedInvestments f now s in
  transactions s1 !! id = Some (completed inv) /\
  users s1 !! o_id (Store.user inv) = Some u /\
  forall f' now',
    transactions (processCompletedInvestments f' now' s1) !! id = Some (completed inv).
Proof.
  intros Hflag Hfind Ht Ha Hdue Hfu Hu Hsu Hst Hothers s1.
  assert (Hr : reached f now (users s) (id, inv) = Some u).
  { unfold reached. cbn [fst snd]. now rewrite Hdue, Hfu. }
  assert (H1 : transactions s1 !! id = Some (completed inv)).
  { unfold s1. rewrite process_records by assumption.
    rewrite list_lookup_imap, Ht. cbn. unfold swept, written.
    rewrite Ha, Hr. cbn [fst]. now rewrite Hst. }
  split; [exact H1 |]. split.
  - unfold s1. rewrite process_unfold, Hflag, Hfind.
    cbn [users set_isProcessing]. rewrite loop_unpaid; [exact Hu |].
    intros [j t] Hin Ho. apply snapshot_elem in Hin as [Hl Hact].
    cbn [fst snd] in *. change (transactions (queried s)) with (transactions s) in Hl.
    destruct (decide (j = id)) as [-> | Hne]; [now right |].
    left. unfold reached. cbn [fst snd].
    now rewrite (Hothers j t Hne Hl Hact Ho).
  - intros f' now'. apply sweep_skips_inactive; [exact H1 |].
    apply completed_not_active.
Qed.

End SweepOutcome.

(** ** Sequences of status transitions *)

Module StatusOutcome.

Import LifecycleProps SweepEffects InterleavingProps SweepProps.
Import InvestProps StatusProps SweepOutcome.
Local Open Scope nat_scope.
Local Open Scope string_scope.

(** X11. An investment that is created and then rejected: the amount
    that was debited is credited to the deposit, the interest balance is
    untouched, and the record is kept, rejected, with an amount of 0. *)
Theorem invest_then_reject (req : InvestRequest) (now : Z) (s : State)
    (p : Plan) (u : User) (a d : Q) (e : Z) :
  plans s !! planId req = Some p -> isActive p = true ->
  r_amount req = Fin a -> Num.lt (Fin a) (minAmount p) = false ->
  users s !! userId req = Some u -> deposit u = Fin d -> (a <= d)%Q ->
  calculateEndDate now (duration p) = Some e ->
  let id := length (transactions s) in
  let s1 := snd (invest req now s) in
  let s2 := snd (updateInvestment id "rejected" s1) in
  exists u2 t2,
    users s2 !! userId req = Some u2 /\
    deposit u2 = Num.add (Num.sub (Fin d) (Fin a)) (Fin a) /\
    Store.interest u2 = Store.interest u /\
    transactions s2 !! id = Some t2 /\
    status t2 = "rejected" /\ amount t2 = Fin 0 /\
    length (transactions s2) = S (length (transactions s)).
Proof.
  intros Hp Hact Ha Hmin Hu Hd Had He id s1 s2.
  assert (Hdep : Num.lt (deposit u) (r_amount req) = false).
  { rewrite Hd, Ha. now apply Qlt_bool_false. }
  rewrite <- Ha in Hmin.
  destruct (invest_debits req now s p u Hp Hact Hmin Hu Hdep) as (Hus & _ & Hend).
  rewrite He in Hend. destruct Hend as (_ & Hts & _).
  fold s1 in Hus, Hts.
  set (u1 := set_deposit (Num.sub (deposit u) (r_amount req)) u) in *.
  set (t1 := created req now e p u1) in *.
  assert (Hl1 : transactions s1 !! id = Some t1).
  { rewrite Hts. unfold id. now rewrite lookup_app_r, Nat.sub_diag by lia. }
  assert (Hu1 : users s1 !! o_id (Store.user t1) = Some u1).
  { rewrite Hus. apply lookup_insert_eq. }
  destruct (reject_once s1 id t1 u1 Hl1 eq_refl Hu1) as (_ & Hus2 & Hts2 & _).
  fold s2 in Hus2, Hts2.
  eexists _, _. split; [rewrite Hus2; apply lookup_insert_eq |].
  split; [unfold u1; cbn; rewrite Hd, Ha; reflexivity |].
  split; [reflexivity |].
  split.
  { rewrite Hts2. apply list_lookup_insert_eq. eapply lookup_lt_Some, Hl1. }
  split; [reflexivity |]. split; [reflexivity |].
  rewrite Hts2, length_insert, Hts, length_app. cbn. lia.
Qed.

(** X12. The handler pays a completion each time it is asked: a second
    [completed] on the same record credits the amount and the total
    interest again. *)
Theorem handler_completion_repeats (s : State) (id : nat) (t : Transaction) (u : User) :
  transactions s !! id = Some t ->
  type t = "investment" ->
  users s !! o_id (Store.user t) = Some u ->
  let s1 := snd (updateInvestment id "completed" s) in
  let s2 := snd (updateInvestment id "completed" s1) in
  users s1 !! o_id (Store.user t) = Some (paid t u) /\
  users s2 !! o_id (Store.user t) = Some (paid t (paid t u)) /\
  transactions s2 !! id = Some (set_status "completed" t) /\
  length (outbox s2) = S (S (length (outbox s))).
Proof.
  intros Ht Hty Hu s1 s2.
  destruct (complete_by_handler s id t u Ht Hty Hu) as (_ & Hus & Hts & Hout & _).
  fold s1 in Hus, Hts, Hout.
  assert (Hu1 : users s1 !! o_id (Store.user (set_status "completed" t))
                = Some (paid t u)).
  { rewrite Hus. apply lookup_insert_eq. }
  assert (Ht1 : transactions s1 !! id = Some (set_status "completed" t)).
  { rewrite Hts. apply list_lookup_insert_eq. eapply lookup_lt_Some, Ht. }
  destruct (complete_by_handler s1 id _ _ Ht1 Hty Hu1) as (_ & Hus2 & Hts2 & Hout2 & _).
  fold s2 in Hus2, Hts2, Hout2.
  split; [exact Hu1 |].
  split; [rewrite Hus2; apply lookup_insert_eq |].
  split.
  { rewrite Hts2. apply list_lookup_insert_eq. eapply lookup_lt_Some, Ht1. }
  rewrite Hout2, Hout, !length_app. cbn. lia.
Qed.

(** X13. A transition on a record that is missing, that is not an
    investment or whose owner is missing is answered 404 and stores
    nothing: the new status is not saved. *)
Theorem transition_not_found (s : State) (id : nat) (status : string) :
  (transactions s !! id = None \/
   (exists t, transactions s !! id = Some t /\
      (type t <> "investment" \/ users s !! o_id (Store.user t) = None))) ->
  let s' := snd (updateInvestment id status s) in
  code (fst (updateInvestment id status s)) = 404 /\
  users s' = users s /\ transactions s' = transactions s /\ outbox s' = outbox s.
Proof.
  unfold updateInvestment, updateInvestment_body. unfold_async. cbn.
  intros [Hn | (t & Ht & [Hty | Hu])].
  - rewrite Hn. cbn. repeat split.
  - rewrite Ht. cbn. apply String.eqb_neq in Hty. rewrite Hty. cbn. repeat split.
  - rewrite Ht. cbn. destruct (String.eqb (type t) "investment"); cbn; [| repeat split].
    rewrite Hu. cbn. repeat split.
Qed.

(** X14. The status [approved] only notifies: the owner's balances and the
    amount stay as they are, the record is saved with the new status
    and one approval mail is sent.  The record is from then on not
    [active], so that no sweep completes it, at any date and whatever
    fails. *)
Theorem approval_leaves_the_sweep (s : State) (id : nat) (t : Transaction) (u : User) :
  transactions s !! id = Some t ->
  type t = "investment" ->
  users s !! o_id (Store.user t) = Some u ->
  let s' := snd (updateInvestment id "approved" s) in
  fst (updateInvestment id "approved" s) =
    mkResponse 200 (Updated "approved" (set_status "approved" t)) /\
  users s' = users s /\
  transactions s' = <[id := set_status "approved" t]> (transactions s) /\
  outbox s' = (outbox s ++ [investmentApproved (email u) (fullName u) (amount t)
                              (date t) (plan (planData t))])%list /\
  forall f now,
    transactions (processCompletedInvestments f now s') !! id =
      Some (set_status "approved" t).
Proof.
  intros Ht Hty Hu s'.
  assert (H : fst (updateInvestment id "approved" s) =
                mkResponse 200 (Updated "approved" (set_status "approved" t)) /\
              users s' = users s /\
              transactions s' = <[id := set_status "approved" t]> (transactions s) /\
              outbox s' = (outbox s ++ [investmentApproved (email u) (fullName u)
                             (amount t) (date t) (plan (planData t))])%list).
  { unfold s', updateInvestment, updateInvestment_body. unfold_async. cbn.
    rewrite Ht, Hty. cbn. rewrite Hu. cbn. repeat split. }
  destruct H as (H1 & H2 & H3 & H4).
  split; [exact H1 |]. split; [exact H2 |]. split; [exact H3 |].
  split; [exact H4 |].
  intros f now. apply sweep_skips_inactive.
  - rewrite H3. apply list_lookup_insert_eq. eapply lookup_lt_Some, Ht.
  - unfold is_active_investment. cbn. apply andb_false_r.
Qed.

End StatusOutcome.

(** ** The other plan handlers *)

Module PlanAdminProps.

Import PlanProps.
Local Open Scope string_scope.
Local Open Scope nat_scope.

(** What [Plan.findByIdAndUpdate] does to the store. *)
Lemma findByIdAndUpdate_effect (id : nat) (update : Plan -> Plan) (s : State) :
  exists acc,
    Plan_findByIdAndUpdate id update s =
      (Val (update <$> plans s !! id),
       set_accesses acc
         (set_plans (match plans s !! id with
                     | Some p => <[id := update p]> (plans s)
                     | None => plans s
                     end) s)).
Proof.
  unfold Plan_findByIdAndUpdate. unfold_async. cbn.
  destruct (plans s !! id) as [p |]; cbn; eexists; destruct s; reflexivity.
Qed.

(** Soft deletion, stated on the handler. *)
Lemma deletePlan_present (id : nat) (p : Plan) (s : State) :
  plans s !! id = Some p ->
  fst (deletePlan id s) = mkResponse 200 (Message "Plan deleted successfully") /\
  plans (snd (deletePlan id s)) = <[id := set_isActive false p]> (plans s) /\
  users (snd (deletePlan id s)) = users s /\
  transactions (snd (deletePlan id s)) = transactions s /\
  outbox (snd (deletePlan id s)) = outbox s.
Proof.
  intros Hp. unfold deletePlan, deletePlan_body, handler, bind.
  destruct (findByIdAndUpdate_effect id (set_isActive false) s) as [acc ->].
  rewrite Hp. cbn. repeat split; reflexivity.
Qed.

Lemma deletePlan_absent (id : nat) (s : State) :
  plans s !! id = None ->
  fst (deletePlan id s) = mkResponse 404 (Message "Plan not found") /\
  plans (snd (deletePlan id s)) = plans s.
Proof.
  intros Hp. unfold deletePlan, deletePlan_body, handler, bind.
  destruct (findByIdAndUpdate_effect id (set_isActive false) s) as [acc ->].
  rewrite Hp. cbn. split; reflexivity.
Qed.

Lemma getPlan_answer (id : nat) (s : State) :
  fst (getPlan id s) =
    match plans s !! id with
    | Some p => mkResponse 200 (PlanDoc p)
    | None => mkResponse 404 (Message "Plan not found")
    end.
Proof.
  unfold getPlan, getPlan_body. unfold_async. cbn.
  destruct (plans s !! id); reflexivity.
Qed.

(** An investment in a plan that is missing or inactive is refused
    before anything is stored. *)
Lemma invest_inactive (req : InvestRequest) (now : Z) (s : State) :
  (forall p, plans s !! planId req = Some p -> isActive p = false) ->
  fst (invest req now s) = mkResponse 404 (Message "Plan not found") /\
  plans (snd (invest req now s)) = plans s /\
  users (snd (invest req now s)) = users s /\
  transactions (snd (invest req now s)) = transactions s /\
  outbox (snd (invest req now s)) = outbox s.
Proof.
  intros H. unfold invest, invest_body. unfold_async. cbn.
  destruct (plans s !! planId req) as [p |] eqn:E; cbn.
  - rewrite (H p eq_refl). cbn. repeat split; reflexivity.
  - repeat split; reflexivity.
Qed.

Lemma listPlans_elem (s : State) (p : Plan) :
  p ∈ listPlans s <-> p ∈ plans s /\ isActive p = true.
Proof.
  unfold listPlans. rewrite merge_sort_Permutation, list_elem_of_filter. tauto.
Qed.


(** X16. After the soft deletion of a stored plan: the plan is still served
    by [GET /:id], flagged inactive, and keeps its place; it is no longer
    listed; an investment in it is refused with 404 and changes no
    balance; deleting it again is answered 200 and changes nothing. *)
Theorem soft_delete (id : nat) (p : Plan) (s : State) :
  plans s !! id = Some p ->
  let s1 := snd (deletePlan id s) in
  fst (deletePlan id s) = mkResponse 200 (Message "Plan deleted successfully") /\
  plans s1 = <[id := set_isActive false p]> (plans s) /\
  users s1 = users s /\ transactions s1 = transactions s /\ outbox s1 = outbox s /\
  fst (getPlan id s1) = mkResponse 200 (PlanDoc (set_isActive false p)) /\
  (forall q, q ∈ listPlans s1 <->
     exists i, i <> id /\ plans s !! i = Some q /\ isActive q = true) /\
  (forall req now, planId req = id ->
     fst (invest req now s1) = mkResponse 404 (Message "Plan not found") /\
     users (snd (invest req now s1)) = users s /\
     transactions (snd (invest req now s1)) = transactions s) /\
  fst (deletePlan id s1) = mkResponse 200 (Message "Plan deleted successfully") /\
  plans (snd (deletePlan id s1)) = plans s1.
Proof.
  intros Hp s1.
  destruct (deletePlan_present id p s Hp) as (H1 & H2 & H3 & H4 & H5).
  fold s1 in H2, H3, H4, H5.
  assert (Hid : id < length (plans s)) by (eapply lookup_lt_Some, Hp).
  assert (Hp1 : plans s1 !! id = Some (set_isActive false p)).
  { rewrite H2. now apply list_lookup_insert_eq. }
  split; [exact H1 |]. split; [exact H2 |]. split; [exact H3 |].
  split; [exact H4 |]. split; [exact H5 |]. split.
  { rewrite getPlan_answer, Hp1. reflexivity. }
  split.
  { intros q. rewrite listPlans_elem, H2. split.
    - intros [Hq Ha]. apply list_elem_of_lookup in Hq as [i Hi].
      destruct (decide (i = id)) as [-> | Hne].
      + rewrite list_lookup_insert_eq in Hi by exact Hid.
        injection Hi as <-. destruct p; discriminate.
      + rewrite list_lookup_insert_ne in Hi by auto. eauto.
    - intros (i & Hne & Hi & Ha). split; [| exact Ha].
      apply list_elem_of_lookup. exists i.
      rewrite list_lookup_insert_ne by auto. exact Hi. }
  split.
  { intros req now Hreq.
    destruct (invest_inactive req now s1) as (I1 & _ & I3 & I4 & _).
    - intros p'. rewrite Hreq, Hp1. intros [= <-]. destruct p; reflexivity.
    - rewrite I3, I4, H3, H4. auto. }
  destruct (deletePlan_present id _ s1 Hp1) as (D1 & D2 & _).
  split; [exact D1 |]. rewrite D2, H2.
  rewrite list_insert_insert_eq. f_equal.
Qed.

(** The plan that the duplicate check of [PUT /:id] finds. *)
Lemma findOne_except_Some (n : string) (id : nat) (s : State) (q : Plan) :
  fst (Plan_findOne_byName_except n id s) = Val (Some q) ->
  exists i, i <> id /\ plans s !! i = Some q /\
            toLowerCase (name q) = toLowerCase n.
Proof.
  unfold Plan_findOne_byName_except. unfold_async. cbn.
  match goal with |- context [head ?l] => destruct l as [| [i p] l'] eqn:E end;
    cbn; [discriminate |].
  intros [= <-].
  assert (Hin : (i, p) ∈ (i, p) :: l') by apply list_elem_of_here.
  rewrite <- E in Hin. apply list_elem_of_filter in Hin as [[H1 H2] H3].
  cbn in H1, H2. apply String.eqb_eq in H1.
  apply list_elem_of_lookup in H3 as [j Hj].
  rewrite list_lookup_imap in Hj.
  destruct (plans s !! j) as [p' |] eqn:Ej; cbn in Hj; [| discriminate].
  injection Hj as <- <-. eauto.
Qed.

Lemma findOne_except_None (n : string) (id : nat) (s : State) :
  fst (Plan_findOne_byName_except n id s) = Val None ->
  forall i q, i <> id -> plans s !! i = Some q ->
              toLowerCase (name q) <> toLowerCase n.
Proof.
  unfold Plan_findOne_byName_except. unfold_async. cbn.
  match goal with |- context [head ?l] => destruct l as [| [i p] l'] eqn:E end;
    cbn; [| discriminate].
  intros _ i q Hne Hq Hn.
  assert (Hin : (i, q) ∈ @nil (nat * Plan)); [| inversion Hin].
  rewrite <- E. apply list_elem_of_filter. split.
  - cbn. split; [now apply String.eqb_eq | exact Hne].
  - apply list_elem_of_lookup. exists i. rewrite list_lookup_imap, Hq. reflexivity.
Qed.

Lemma findOne_except_state (n : string) (id : nat) (s : State) :
  exists o, Plan_findOne_byName_except n id s =
              (Val o, set_accesses (accesses s ++ [FindPlanByName n]) s).
Proof.
  unfold Plan_findOne_byName_except. unfold_async. cbn. eexists. reflexivity.
Qed.

(** X17. [PUT /:id], by its answer.  A 200 is given only for a stored plan,
    which is replaced in its place by the fields of the request with its
    own [isActive]; the rate of return is then a number from 0 to 1000
    other than 0, and no other plan has the name, when it is made of
    letters, digits and spaces, up to the case of the letters.  Any
    other answer leaves the plans as they are.  Users, transactions and
    mails are never touched. *)
Theorem updatePlan_effect (id : nat) (req : PlanRequest) (s : State) :
  let r := fst (updatePlan id req s) in
  let s1 := snd (updatePlan id req s) in
  users s1 = users s /\ transactions s1 = transactions s /\ outbox s1 = outbox s /\
  (code r <> 200 -> plans s1 = plans s) /\
  (code r = 200 ->
     exists p p',
       plans s !! id = Some p /\ payload r = PlanDoc p' /\
       plans s1 = <[id := p']> (plans s) /\
       isActive p' = isActive p /\
       q_name req = Some (name p') /\ q_roi req = Some (roi p') /\
       q_minAmount req = Some (minAmount p') /\
       truthy_num (Some (roi p')) = true /\
       Num.lt (roi p') (Fin 0) = false /\ Num.gt (roi p') (Fin 1000) = false /\
       (plain (name p') = true ->
        forall i q, i <> id -> plans s !! i = Some q ->
                    toLowerCase (name q) <> toLowerCase (name p'))).
Proof.
  unfold updatePlan, updatePlan_body.
  destruct (_ || _) eqn:Ereq.
  { refused. }
  repeat (apply orb_false_elim in Ereq as [Ereq ?]).
  destruct req as [[n |] [d |] [r |] [m |] [du |] [fs |]];
    cbn [q_name q_description q_roi q_minAmount q_duration q_features
         truthy_string truthy_num truthy_array] in *;
    try discriminate.
  destruct (Num.lt r (Fin 0)) eqn:Er0; [refused |].
  destruct (Num.gt r (Fin 1000)) eqn:Er1; [refused |].
  cbn [orb].
  destruct (Num.lt m (Fin 0)) eqn:Em; [refused |].
  destruct (length fs =? 0) eqn:Efs; [refused |].
  unfold handler, bind.
  destruct (findOne_except_state n id s) as [o Eo].
  pose proof (findOne_except_None n id s) as Hnone.
  rewrite Eo in *. cbn [fst] in Hnone.
  destruct o as [q |]; cbn.
  { refused. }
  destruct (plans s !! id) as [p |] eqn:Ep; unfold_async; cbn.
  - split; [reflexivity |]. split; [reflexivity |]. split; [reflexivity |].
    split; [intros Hc; now destruct Hc |]. intros _.
    eexists p, _. split; [reflexivity |]. split; [reflexivity |].
    split; [reflexivity |]. split; [reflexivity |]. split; [reflexivity |].
    split; [reflexivity |]. split; [reflexivity |].
    split; [now apply negb_false_iff |]. split; [exact Er0 |].
    split; [exact Er1 |]. cbn. intros _. apply Hnone. reflexivity.
  - refused.
Qed.

Section Valid.

Variables (n d dur : string) (r m : Q) (fs : list string).
Hypothesis n_given : n <> "".
Hypothesis d_given : d <> "".
Hypothesis dur_given : dur <> "".
Hypothesis r_range : (0 < r <= 1000)%Q.
Hypothesis m_range : (0 < m)%Q.
Hypothesis fs_given : fs <> [].

Lemma createPlan_checks (s : State) :
  createPlan (full_request n d dur r m fs) s =
    handler (existingPlan <- Plan_findOne_byName n ;;
             match existingPlan with
             | Some _ => return_ (mkResponse 400 (Message "Plan name already exists"))
             | None =>
                 savedPlan <- Plan_create (stored_plan n d dur r m fs true) ;;
                 ret (mkResponse 201 (PlanDoc savedPlan))
             end)%async s.
Proof.
  unfold createPlan, createPlan_body, full_request. cbn.
  apply String.eqb_neq in n_given, d_given, dur_given.
  rewrite n_given, d_given, dur_given. cbn.
  rewrite (Qeq_bool_false r 0), (Qeq_bool_false m 0) by lra. cbn.
  assert (E1 : Num.Qlt_bool r 0 = false).
  { destruct (Num.Qlt_bool r 0) eqn:E; [apply Qlt_bool_iff in E; lra | reflexivity]. }
  assert (E2 : Num.Qlt_bool 1000 r = false).
  { destruct (Num.Qlt_bool 1000 r) eqn:E; [apply Qlt_bool_iff in E; lra | reflexivity]. }
  assert (E3 : Num.Qlt_bool m 0 = false).
  { destruct (Num.Qlt_bool m 0) eqn:E; [apply Qlt_bool_iff in E; lra | reflexivity]. }
  unfold Num.gt. cbn. rewrite E1, E2, E3. cbn.
  destruct fs as [| f fs']; [contradiction |]. reflexivity.
Qed.

Lemma updatePlan_checks (id : nat) (s : State) :
  updatePlan id (full_request n d dur r m fs) s =
    handler (existingPlan <- Plan_findOne_byName_except n id ;;
             match existingPlan with
             | Some _ => return_ (mkResponse 400 (Message "Plan name already exists"))
             | None =>
                 plan <- Plan_findByIdAndUpdate id
                           (fun p => stored_plan n d dur r m fs (isActive p)) ;;
                 match plan with
                 | None => return_ (mkResponse 404 (Message "Plan not found"))
                 | Some plan => ret (mkResponse 200 (PlanDoc plan))
                 end
             end)%async s.
Proof.
  unfold updatePlan, updatePlan_body, full_request. cbn.
  apply String.eqb_neq in n_given, d_given, dur_given.
  rewrite n_given, d_given, dur_given. cbn.
  rewrite (Qeq_bool_false r 0), (Qeq_bool_false m 0) by lra. cbn.
  assert (E1 : Num.Qlt_bool r 0 = false).
  { destruct (Num.Qlt_bool r 0) eqn:E; [apply Qlt_bool_iff in E; lra | reflexivity]. }
  assert (E2 : Num.Qlt_bool 1000 r = false).
  { destruct (Num.Qlt_bool 1000 r) eqn:E; [apply Qlt_bool_iff in E; lra | reflexivity]. }
  assert (E3 : Num.Qlt_bool m 0 = false).
  { destruct (Num.Qlt_bool m 0) eqn:E; [apply Qlt_bool_iff in E; lra | reflexivity]. }
  unfold Num.gt. cbn. rewrite E1, E2, E3. cbn.
  destruct fs as [| f fs']; [contradiction |]. reflexivity.
Qed.

(** A name that a stored plan has, in any case of the letters, is
    refused by [POST /]. *)
Lemma createPlan_duplicate (s : State) (p : Plan) :
  p ∈ plans s -> toLowerCase (name p) = toLowerCase n ->
  createPlan (full_request n d dur r m fs) s =
    (mkResponse 400 (Message "Plan name already exists"),
     set_accesses (accesses s ++ [FindPlanByName n]) s).
Proof.
  intros Hp Hn. rewrite createPlan_checks.
  unfold Plan_findOne_byName. unfold_async. cbn.
  match goal with |- context [head ?l] => destruct l as [| p' l'] eqn:E end.
  - exfalso. assert (Hin : p ∈ @nil Plan); [| inversion Hin].
    rewrite <- E. apply list_elem_of_filter. split; [| exact Hp].
    now apply String.eqb_eq.
  - reflexivity.
Qed.

(** The name check of [PUT /:id] passes over the plan that is updated. *)
Lemma updatePlan_by_name (id : nat) (s : State) :
  ((exists i q, i <> id /\ plans s !! i = Some q /\
                toLowerCase (name q) = toLowerCase n) ->
   fst (updatePlan id (full_request n d dur r m fs) s) =
     mkResponse 400 (Message "Plan name already exists") /\
   plans (snd (updatePlan id (full_request n d dur r m fs) s)) = plans s) /\
  ((forall i q, i <> id -> plans s !! i = Some q ->
                toLowerCase (name q) <> toLowerCase n) ->
   match plans s !! id with
   | Some p =>
       fst (updatePlan id (full_request n d dur r m fs) s) =
         mkResponse 200 (PlanDoc (stored_plan n d dur r m fs (isActive p))) /\
       plans (snd (updatePlan id (full_request n d dur r m fs) s)) =
         <[id := stored_plan n d dur r m fs (isActive p)]> (plans s) /\
       (toLowerCase (name p) = toLowerCase n ->
        fst (createPlan (full_request n d dur r m fs) s) =
          mkResponse 400 (Message "Plan name already exists"))
   | None =>
       fst (updatePlan id (full_request n d dur r m fs) s) =
         mkResponse 404 (Message "Plan not found") /\
       plans (snd (updatePlan id (full_request n d dur r m fs) s)) = plans s
   end).
Proof.
  rewrite updatePlan_checks. unfold handler, bind.
  destruct (findOne_except_state n id s) as [o Eo].
  pose proof (findOne_except_None n id s) as Hnone.
  pose proof (findOne_except_Some n id s) as Hsome.
  rewrite Eo in *. cbn [fst] in Hnone, Hsome. split.
  - intros (i & q & Hne & Hq & Hn). destruct o as [q' |]; cbn.
    + split; reflexivity.
    + destruct (Hnone eq_refl i q Hne Hq Hn).
  - intros Hfree. destruct o as [q' |].
    + destruct (Hsome q' eq_refl) as (i & Hne & Hq & Hn).
      destruct (Hfree i q' Hne Hq Hn).
    + destruct (plans s !! id) as [p |] eqn:Ep.
      * unfold Plan_findByIdAndUpdate. unfold_async. cbn. rewrite Ep. cbn.
        split; [reflexivity |]. split; [reflexivity |].
        intros Hn. erewrite createPlan_duplicate; [reflexivity | | exact Hn].
        eapply list_elem_of_lookup_2, Ep.
      * unfold Plan_findByIdAndUpdate. unfold_async. cbn. rewrite Ep. cbn.
        split; reflexivity.
Qed.

(** A plan that [POST /] has created is served and listed. *)
Lemma createPlan_served (s : State) :
  (forall p, p ∈ plans s -> toLowerCase (name p) <> toLowerCase n) ->
  let s1 := snd (createPlan (full_request n d dur r m fs) s) in
  fst (createPlan (full_request n d dur r m fs) s) =
    mkResponse 201 (PlanDoc (stored_plan n d dur r m fs true)) /\
  fst (getPlan (length (plans s)) s1) =
    mkResponse 200 (PlanDoc (stored_plan n d dur r m fs true)) /\
  stored_plan n d dur r m fs true ∈ listPlans s1 /\
  (forall p, p ∈ listPlans s -> p ∈ listPlans s1) /\
  plans s1 = (plans s ++ [stored_plan n d dur r m fs true])%list.
Proof.
  intros Hfresh s1.
  destruct (createPlan_accepts s n d dur r m fs n_given d_given dur_given
              r_range m_range fs_given Hfresh) as [H1 H2].
  change (mkPlanRequest _ _ _ _ _ _) with (full_request n d dur r m fs) in H1, H2. fold s1 in H2.
  change (mkPlan _ _ _ _ _ _ true) with (stored_plan n d dur r m fs true) in *.
  assert (Hin : stored_plan n d dur r m fs true ∈ plans s1).
  { rewrite H2. apply elem_of_app. right. apply list_elem_of_here. }
  split; [exact H1 |]. split.
  { rewrite getPlan_answer, H2, lookup_app_r by reflexivity.
    now rewrite Nat.sub_diag. }
  split; [apply listPlans_elem; split; [exact Hin | reflexivity] |].
  split.
  { intros p. rewrite !listPlans_elem, H2, elem_of_app. tauto. }
  exact H2.
Qed.

End Valid.

(** X18. The name check of [PUT /:id] passes over the plan that is
    updated.  With every field there, a rate of return in (0, 1000], a
    minimum amount above 0, a feature and a name of letters, digits and
    spaces: the request is refused with 400 when another plan has the
    name up to the case of the letters; otherwise a stored plan is
    replaced in its place, keeping its [isActive], also when the name is
    its own, which [POST /] refuses; and a missing plan is answered
    404. *)
Theorem updatePlan_name_check (n d dur : string) (r m : Q) (fs : list string)
    (id : nat) (s : State) :
  n <> "" -> d <> "" -> dur <> "" ->
  (0 < r <= 1000)%Q -> (0 < m)%Q -> fs <> [] ->
  plain n = true ->
  let req := full_request n d dur r m fs in
  ((exists i q, i <> id /\ plans s !! i = Some q /\
                toLowerCase (name q) = toLowerCase n) ->
   fst (updatePlan id req s) = mkResponse 400 (Message "Plan name already exists") /\
   plans (snd (updatePlan id req s)) = plans s) /\
  ((forall i q, i <> id -> plans s !! i = Some q ->
                toLowerCase (name q) <> toLowerCase n) ->
   (forall p, plans s !! id = Some p ->
      (exists p',
         fst (updatePlan id req s) = mkResponse 200 (PlanDoc p') /\
         name p' = n /\ isActive p' = isActive p /\
         plans (snd (updatePlan id req s)) = <[id := p']> (plans s)) /\
      (toLowerCase (name p) = toLowerCase n ->
       fst (createPlan req s) = mkResponse 400 (Message "Plan name already exists"))) /\
   (plans s !! id = None ->
      fst (updatePlan id req s) = mkResponse 404 (Message "Plan not found") /\
      plans (snd (updatePlan id req s)) = plans s)).
Proof.
  intros Hn Hd Hdur Hr Hm Hfs _ req.
  destruct (updatePlan_by_name n d dur r m fs Hn Hd Hdur Hr Hm Hfs id s) as [H1 H2].
  split; [exact H1 |]. intros Hfree. specialize (H2 Hfree). split.
  - intros p Hp. rewrite Hp in H2. destruct H2 as (A & B & C). split; [| exact C].
    eexists. split; [exact A |]. split; [reflexivity |]. split; [reflexivity | exact B].
  - intros Hp. rewrite Hp in H2. exact H2.
Qed.

(** X19. A plan that [POST /] has created, from a request as above with
    a name that no plan has, is appended active to the collection,
    served by [GET /:id] under the position it got and listed by
    [GET /] beside the plans listed before; its name, in any case of
    the letters, is refused from then on. *)
Theorem created_plan_is_served (n d dur : string) (r m : Q) (fs : list string)
    (s : State) :
  n <> "" -> d <> "" -> dur <> "" ->
  (0 < r <= 1000)%Q -> (0 < m)%Q -> fs <> [] ->
  plain n = true ->
  (forall p, p ∈ plans s -> toLowerCase (name p) <> toLowerCase n) ->
  let s1 := snd (createPlan (full_request n d dur r m fs) s) in
  exists created,
    fst (createPlan (full_request n d dur r m fs) s) =
      mkResponse 201 (PlanDoc created) /\
    name created = n /\ isActive created = true /\
    plans s1 = (plans s ++ [created])%list /\
    fst (getPlan (length (plans s)) s1) = mkResponse 200 (PlanDoc created) /\
    created ∈ listPlans s1 /\
    (forall p, p ∈ listPlans s -> p ∈ listPlans s1) /\
    forall n', n' <> "" -> plain n' = true -> toLowerCase n' = toLowerCase n ->
      fst (createPlan (full_request n' d dur r m fs) s1) =
        mkResponse 400 (Message "Plan name already exists") /\
      plans (snd (createPlan (full_request n' d dur r m fs) s1)) = plans s1.
Proof.
  intros Hn Hd Hdur Hr Hm Hfs _ Hfresh s1.
  destruct (createPlan_served n d dur r m fs Hn Hd Hdur Hr Hm Hfs s Hfresh)
    as (H1 & H2 & H3 & H4 & H5).
  fold s1 in H2, H3, H4, H5.
  exists (stored_plan n d dur r m fs true).
  split; [exact H1 |]. split; [reflexivity |]. split; [reflexivity |].
  split; [exact H5 |]. split; [exact H2 |]. split; [exact H3 |].
  split; [exact H4 |]. intros n' Hn' _ Hlow.
  rewrite (createPlan_duplicate n' d dur r m fs Hn' Hd Hdur Hr Hm Hfs s1
             (stored_plan n d dur r m fs true)).
  - split; reflexivity.
  - apply listPlans_elem in H3. apply H3.
  - symmetry. exact Hlow.
Qed.

End PlanAdminProps.

(** ** Seeding *)

Module SeedProps.

Import Seed.
Local Open Scope nat_scope.

(** A collection that is not empty is left as it is. *)
Lemma seedUtil_skips (c f : bool) (us : list Util) :
  us <> [] -> seedUtil c f us = us.
Proof. intros H. unfold seedUtil. destruct c, us; try reflexivity. now destruct H. Qed.

Lemma seeded_skips (runs : list (bool * bool)) (us : list Util) :
  us <> [] -> seeded runs us = us.
Proof.
  revert us. induction runs as [| [c f] runs IH]; intros us H; [reflexivity |].
  unfold seeded. cbn [foldl fst snd]. rewrite (seedUtil_skips c f us H).
  now apply IH.
Qed.

(** X20. However often [seedUtil] runs and whatever fails, a collection
    that is not empty stays as it is, and an empty one ends up empty or
    with the seed document alone: with the seed document as soon as one
    run goes through without a failure. *)
Theorem seedUtil_seeds_once (runs : list (bool * bool)) (us : list Util) :
  (us <> [] -> seeded runs us = us) /\
  (us = [] ->
     (seeded runs us = [] \/ seeded runs us = [mockData]) /\
     ((false, false) ∈ runs -> seeded runs us = [mockData])).
Proof.
  split; [apply seeded_skips |]. intros ->.
  induction runs as [| [c f] runs IH].
  - split; [now left |]. intros H. inversion H.
  - unfold seeded in *. cbn [foldl fst snd].
    destruct c; [| destruct f]; cbn [seedUtil length Nat.eqb app].
    + split; [apply IH |]. intros H. apply IH.
      apply elem_of_cons in H as [[=] | H]; exact H.
    + split; [apply IH |]. intros H. apply IH.
      apply elem_of_cons in H as [[=] | H]; exact H.
    + assert (E : foldl (fun us cf => seedUtil (fst cf) (snd cf) us) [mockData] runs
                  = [mockData]) by (apply (seeded_skips runs [mockData]); discriminate).
      rewrite E. split; [now right | reflexivity].
Qed.

End SeedProps.

(** * Scenarios *)

Module DateScenarios.



(** With whole days left, the hours are reported also when there are
    none, and the minutes are not; with less than a minute left, the
    minutes are reported as 0. *)
Lemma formatTimeRemaining_zero_counts :
  formatTimeRemaining (1 * day_ms + 30 * minute_ms) 0 = "1 day, 0 hour"%string /\
  formatTimeRemaining 30000 0 = "0 minute"%string.
Proof. split; reflexivity. Qed.

(** Nothing left, and exactly 2 days and 3 hours left. *)
Lemma formatTimeRemaining_reports_witness :
  formatTimeRemaining 0 0 = "Investment completed"%string /\
  formatTimeRemaining (2 * day_ms + 3 * hour_ms) 0 = "2 days, 3 hours"%string.
Proof.
  split.
  - apply (proj1 (DateUtilsProps.formatTimeRemaining_reports 0 0)). discriminate.
  - apply (proj2 (DateUtilsProps.formatTimeRemaining_reports
                    (2 * day_ms + 3 * hour_ms) 0) 2 3 0 0)%Z;
      try reflexivity; try (split; [discriminate | reflexivity]); discriminate.
Defined.

End DateScenarios.

Module HandlerScenarios.

Import Scenario.
Local Open Scope string_scope.

(** C1 fails on the handler's path.  Completing Ann's investment (amount
    200, total interest 20) through [PUT /investment/:id] credits her
    deposit by 200 and her interest by 20 and stores the status
    [completed], but the stored [currentInterest] stays 0; the scheduler,
    on the same state once the investment is due, stores 20. *)
Theorem handler_completion_keeps_currentInterest :
  let s' := snd (updateInvestment 0 "completed" invested) in
  let s'' := processCompletedInvestments no_faults (30 * day_ms) invested in
  (deposit <$> users s' !! 7%nat) = Some (Fin 1000) /\
  (Store.interest <$> users s' !! 7%nat) = Some (Fin 20) /\
  (status <$> transactions s' !! 0%nat) = Some "completed" /\
  (currentInterest ∘ planData <$> transactions s' !! 0%nat) = Some (Fin 0) /\
  (pd_interest ∘ planData <$> transactions s' !! 0%nat) = Some (Fin 20) /\
  (deposit <$> users s'' !! 7%nat) = Some (Fin 1000) /\
  (Store.interest <$> users s'' !! 7%nat) = Some (Fin 20) /\
  (status <$> transactions s'' !! 0%nat) = Some "completed" /\
  (currentInterest ∘ planData <$> transactions s'' !! 0%nat) = Some (Fin 20).
Proof. vm_compute. repeat split. Qed.

(** C8 fails on the presence test.  A request to create a plan with
    every field filled in and a rate of return of 0, or a minimum amount
    of 0, is answered 400 ["All fields are required"], and no plan is
    stored; with a rate of 10 and a minimum of 100 the same request is
    answered 201. *)
Theorem createPlan_rejects_zero :
  fst (createPlan (silver_request (Fin 0) (Fin 100)) fresh) =
    mkResponse 400 (Message "All fields are required") /\
  fst (createPlan (silver_request (Fin 10) (Fin 0)) fresh) =
    mkResponse 400 (Message "All fields are required") /\
  plans (snd (createPlan (silver_request (Fin 0) (Fin 100)) fresh)) = plans fresh /\
  plans (snd (createPlan (silver_request (Fin 10) (Fin 0)) fresh)) = plans fresh /\
  code (fst (createPlan (silver_request (Fin 10) (Fin 100)) fresh)) = 201%nat.
Proof. vm_compute. repeat split. Qed.

(** Rejecting Ann's investment of 200 takes her deposit from 800 to
    800 + 200 and stores an amount of 0. *)
Lemma reject_refunds_once_witness :
  exists u1 t1,
    users (snd (updateInvestment 0 "rejected" invested)) !! 7%nat = Some u1 /\
    transactions (snd (updateInvestment 0 "rejected" invested)) !! 0%nat = Some t1 /\
    deposit u1 = Num.add (Fin 800) (Fin 200) /\ amount t1 = Fin 0.
Proof.
  destruct (StatusProps.reject_refunds_once invested 0 investment ann_invested
              eq_refl eq_refl eq_refl)
    as (u1 & t1 & Hu & Ht & Hd & _ & Ha & _).
  exists u1, t1. repeat split; assumption.
Defined.

(** The progress of the investment without interest, halfway through
    its term. *)
Lemma progress_of_zero_interest_witness :
  exists p, fst (investmentProgress 0 (15 * day_ms) invested_interest_free) =
              mkResponse 200 (ProgressOf p) /\
            progress p = NaN.
Proof.
  destruct (ProgressHandlers.progress_of_zero_interest invested_interest_free 0
              interest_free 0 (15 * day_ms) eq_refl eq_refl eq_refl)
    as [(p & Hp & _ & Hn) _].
  - reflexivity.
  - exists p. split; assumption.
Defined.

End HandlerScenarios.

Module InvestScenarios.

Import Scenario.
Local Open Scope string_scope.

(** C3, as stated, fails for an interest of 0 in the request: on the
    Gold plan (10 percent) an investment of 200 with an interest of 0
    is stored with a total interest of 200 * 10 / 100, not 0. *)
Lemma invest_zero_interest_request :
  let req := mkInvestRequest 0 (Fin 200) 7 (Some (Fin 0)) in
  let s' := snd (invest req 0 fresh) in
  code (fst (invest req 0 fresh)) = 201%nat /\
  (pd_interest ∘ planData <$> transactions s' !! 0%nat) = Some (Fin (200 * 10 / 100)) /\
  ~ (Fin (200 * 10 / 100) ==n Fin 0)%num.
Proof. vm_compute. repeat split. intros H. discriminate H. Qed.

(** Ann, with a deposit of 1000, invests 200 at 10 percent: her deposit
    is 800 and the total interest stored is 200 * 10 / 100. *)
Lemma invest_debits_and_records_witness :
  (deposit <$> users (snd (invest invest_200 0 fresh)) !! 7%nat) = Some (Fin 800) /\
  exists t, transactions (snd (invest invest_200 0 fresh)) = [t] /\
            pd_interest (planData t) = Fin (200 * 10 / 100).
Proof.
  destruct (InvestProps.invest_debits_and_records invest_200 0 fresh gold ann 200 1000)
    as (Hu & _ & Hrec); try reflexivity; try discriminate.
  split.
  - exact (f_equal (fmap deposit) Hu).
  - destruct (Hrec (30 * day_ms)%Z eq_refl) as (t & _ & Ht & _ & _ & _ & _ & Hi & _).
    exists t. split; [exact Ht | now apply Hi].
Defined.


(** A creation on a plan whose duration is malformed is answered 500
    after the deposit was debited and saved: Ann's deposit is 800 and no
    record is stored. *)
Lemma invest_malformed_duration_debits :
  let req := mkInvestRequest 2 (Fin 200) 7 None in
  let s' := snd (invest req 0 fresh) in
  code (fst (invest req 0 fresh)) = 500%nat /\
  (deposit <$> users s' !! 7%nat) = Some (Fin 800) /\
  transactions s' = [].
Proof. vm_compute. repeat split. Qed.


End InvestScenarios.

Module LifecycleScenarios.

Import Scenario.
Local Open Scope string_scope.

(** C7, as stated, fails for a request with a negative interest: the
    record is created with an accrued interest of 0 above its total
    interest of -5, and the sweep that completes it takes the accrued
    interest down from 0 to -5. *)
Lemma negative_interest_request :
  let created := run [Create (invest_200_with (Fin (-5))) 0] fresh in
  let swept := run [Create (invest_200_with (Fin (-5))) 0;
                    Sweep no_faults (30 * day_ms)] fresh in
  (planData <$> transactions created !! 0%nat) =
    Some (mkPlanData "Gold" "30 days" (Fin (-5)) 0 (30 * day_ms) (Fin 0)) /\
  Num.le (Fin 0) (Fin (-5)) = false /\
  (planData <$> transactions swept !! 0%nat) =
    Some (mkPlanData "Gold" "30 days" (Fin (-5)) 0 (30 * day_ms) (Fin (-5))).
Proof. vm_compute. repeat split. Qed.

(** Ann's investment is created, completed by a sweep once due, then
    rejected through the handler. *)
Lemma currentInterest_bounded_monotone_witness :
  Forall bounded
    (transactions (run [Create invest_200 0; Sweep no_faults (30 * day_ms);
                        Transition 0 "rejected"] fresh)).
Proof.
  apply (InvariantProps.currentInterest_bounded_monotone
           [Create invest_200 0; Sweep no_faults (30 * day_ms);
            Transition 0 "rejected"] fresh).
  - constructor.
  - repeat constructor. intros p Hp. injection Hp as <-. reflexivity.
Defined.

End LifecycleScenarios.

Module SweepScenarios.

Import Scenario.

(** A sweep on the store while another is in progress, and a sweep on
    the store at rest. *)
Lemma sweep_single_flight_witness :
  processCompletedInvestments no_faults (30 * day_ms) sweeping = sweeping /\
  isProcessing (processCompletedInvestments no_faults (30 * day_ms) invested) = false.
Proof.
  destruct (SweepProps.sweep_single_flight no_faults (30 * day_ms) sweeping)
    as (Hskip & _).
  destruct (SweepProps.sweep_single_flight no_faults (30 * day_ms) invested)
    as (_ & Hrun & _).
  split.
  - apply Hskip. reflexivity.
  - apply Hrun. reflexivity.
Defined.

End SweepScenarios.

Module FurtherScenarios.

Import Scenario.
Local Open Scope string_scope.
Local Open Scope Z_scope.



(** Ann's investment half way through its term. *)
Lemma progress_projection_witness :
  exists p x,
    fst (investmentProgress 0 (15 * day_ms) invested) = mkResponse 200 (ProgressOf p) /\
    progress p = Fin x /\ (0 <= x <= 100)%Q.
Proof.
  destruct (ProgressRange.progress_projection invested 0 investment 20 (15 * day_ms)
              eq_refl eq_refl eq_refl eq_refl eq_refl)
    as (p & x & H1 & H2 & H3 & _).
  exists p, x. split; [exact H1 |]. split; [exact H2 | exact H3].
Defined.

(** The sweep of the store with Ann's investment, at its end date. *)
Lemma sweep_records_witness :
  transactions (processCompletedInvestments no_faults (30 * day_ms) invested) =
    imap (swept no_faults (30 * day_ms) (users invested)) (transactions invested).
Proof.
  apply (SweepOutcome.sweep_records no_faults (30 * day_ms) invested); reflexivity.
Defined.

(** A user other than Ann, at the sweep that completes Ann's investment. *)
Lemma sweep_other_users_witness :
  users (processCompletedInvestments no_faults (30 * day_ms) invested) !! 8%nat =
    users invested !! 8%nat.
Proof.
  apply (SweepOutcome.sweep_other_users no_faults (30 * day_ms) invested 8).
  intros id inv Hl _ Ho. destruct id as [| id].
  - injection Hl as <-. discriminate Ho.
  - discriminate Hl.
Defined.

(** Two sweeps at the end date of Ann's investment. *)
Lemma sweep_idempotent_witness :
  users (processCompletedInvestments no_faults (30 * day_ms)
           (processCompletedInvestments no_faults (30 * day_ms) invested)) =
    users (processCompletedInvestments no_faults (30 * day_ms) invested).
Proof.
  destruct (SweepOutcome.sweep_idempotent no_faults (30 * day_ms) (30 * day_ms) invested
              eq_refl ltac:(lia))
    as (H & _).
  exact H.
Defined.

(** The listing after the sweep that completes Ann's investment. *)
Lemma sweep_leaves_orphans_witness :
  exists l total,
    fst (activeInvestments (30 * day_ms)
           (processCompletedInvestments no_faults (30 * day_ms) invested)) =
      mkResponse 200 (ActiveInvestments l total 0).
Proof.
  assert (Hown : forall (id : nat) (inv : Transaction),
            transactions invested !! id = Some inv ->
            is_Some (users invested !! o_id (Store.user inv))).
  { intros id inv Hl. destruct id as [| id]; [| discriminate Hl].
    injection Hl as <-. exists ann_invested. reflexivity. }
  destruct (SweepOutcome.sweep_leaves_orphans (30 * day_ms) invested eq_refl) as (_ & H).
  exact (H Hown).
Defined.

(** Ann invests 200 at time 0; the sweep runs at the end date. *)
Lemma invest_then_sweep_witness :
  exists u2 t2,
    users (processCompletedInvestments no_faults (30 * day_ms)
             (snd (invest invest_200 0 fresh))) !! 7%nat = Some u2 /\
    Store.interest u2 = Num.add (Fin 0) (Fin (200 * 10 / 100)) /\
    transactions (processCompletedInvestments no_faults (30 * day_ms)
                    (snd (invest invest_200 0 fresh))) !! 0%nat = Some t2 /\
    status t2 = "completed".
Proof.
  assert (Hnone : forall (id : nat) (t : Transaction),
            transactions fresh !! id = Some t ->
            is_active_investment t = true -> o_id (Store.user t) = userId invest_200 ->
            isInvestmentDue (endDate (planData t)) (30 * day_ms) = false).
  { intros id t Hl. discriminate Hl. }
  destruct (SweepOutcome.invest_then_sweep invest_200 0 (30 * day_ms) fresh gold ann
              200 1000 (30 * day_ms) eq_refl eq_refl eq_refl eq_refl eq_refl eq_refl
              eq_refl ltac:(discriminate) eq_refl ltac:(lia) Hnone)
    as (u2 & t2 & H1 & _ & H3 & H4 & H5 & _).
  exists u2, t2. split; [exact H1 |]. split; [exact H3 |]. split; [exact H4 | exact H5].
Defined.

(** Ann invests 200 at time 0 and the investment is rejected. *)
Lemma invest_then_reject_witness :
  exists u2 t2,
    users (snd (updateInvestment 0 "rejected" (snd (invest invest_200 0 fresh))))
      !! 7%nat = Some u2 /\
    deposit u2 = Num.add (Num.sub (Fin 1000) (Fin 200)) (Fin 200) /\
    transactions (snd (updateInvestment 0 "rejected" (snd (invest invest_200 0 fresh))))
      !! 0%nat = Some t2 /\
    status t2 = "rejected" /\ amount t2 = Fin 0.
Proof.
  destruct (StatusOutcome.invest_then_reject invest_200 0 fresh gold ann 200 1000
              (30 * day_ms) eq_refl eq_refl eq_refl eq_refl eq_refl eq_refl
              ltac:(discriminate) eq_refl)
    as (u2 & t2 & H1 & H2 & _ & H4 & H5 & H6 & _).
  exists u2, t2. split; [exact H1 |]. split; [exact H2 |]. split; [exact H4 |].
  split; [exact H5 | exact H6].
Defined.

(** Ann's investment completed twice by the handler. *)
Lemma handler_completion_repeats_witness :
  users (snd (updateInvestment 0 "completed"
                (snd (updateInvestment 0 "completed" invested)))) !! 7%nat =
    Some (paid investment (paid investment ann_invested)).
Proof.
  destruct (StatusOutcome.handler_completion_repeats invested 0 investment ann_invested
              eq_refl eq_refl eq_refl)
    as (_ & H & _).
  exact H.
Defined.

(** Ann's investment approved, then swept at its end date. *)
Lemma approval_leaves_the_sweep_witness :
  transactions (processCompletedInvestments no_faults (30 * day_ms)
                  (snd (updateInvestment 0 "approved" invested))) !! 0%nat =
    Some (set_status "approved" investment).
Proof.
  destruct (StatusOutcome.approval_leaves_the_sweep invested 0 investment ann_invested
              eq_refl eq_refl eq_refl)
    as (_ & _ & _ & _ & H).
  apply H.
Defined.

(** A transition on a store without transactions. *)
Lemma transition_not_found_witness :
  code (fst (updateInvestment 0 "completed" fresh)) = 404%nat /\
  users (snd (updateInvestment 0 "completed" fresh)) = users fresh.
Proof.
  destruct (StatusOutcome.transition_not_found fresh 0 "completed" (or_introl eq_refl))
    as (H1 & H2 & _).
  split; [exact H1 | exact H2].
Defined.

(** The Gold plan deleted; Ann's request is then refused. *)
Lemma soft_delete_witness :
  fst (getPlan 0 (snd (deletePlan 0 fresh))) = mkResponse 200 (PlanDoc retired) /\
  fst (invest invest_200 0 (snd (deletePlan 0 fresh))) =
    mkResponse 404 (Message "Plan not found").
Proof.
  destruct (PlanAdminProps.soft_delete 0 gold fresh eq_refl)
    as (_ & _ & _ & _ & _ & H1 & _ & H2 & _).
  split; [exact H1 |]. apply (H2 invest_200 0 eq_refl).
Defined.

(** The plan Open renamed to its own name in small letters, with a new
    description. *)
Lemma updatePlan_name_check_witness :
  (exists p',
     fst (updatePlan 2 (full_request "open" "Ninety days" "90 days" 12 100 ["flexible"])
            fresh) = mkResponse 200 (PlanDoc p') /\
     name p' = "open" /\ isActive p' = isActive open_ended) /\
  fst (createPlan (full_request "open" "Ninety days" "90 days" 12 100 ["flexible"])
         fresh) =
    mkResponse 400 (Message "Plan name already exists").
Proof.
  assert (Hfree : forall (i : nat) (q : Plan), i <> 2%nat -> plans fresh !! i = Some q ->
            toLowerCase (name q) <> toLowerCase "open").
  { intros i q Hne Hl. destruct i as [| [| [| i]]].
    - injection Hl as <-. discriminate.
    - injection Hl as <-. discriminate.
    - now destruct Hne.
    - discriminate Hl. }
  destruct (PlanAdminProps.updatePlan_name_check "open" "Ninety days" "90 days" 12 100
              ["flexible"] 2%nat fresh ltac:(discriminate) ltac:(discriminate)
              ltac:(discriminate) ltac:(split; [reflexivity | discriminate]) eq_refl
              ltac:(discriminate) eq_refl) as [_ H].
  destruct (H Hfree) as [Hp _].
  destruct (Hp open_ended eq_refl) as [(p' & H1 & H2 & H3 & _) H4].
  split; [| apply H4; reflexivity].
  exists p'. split; [exact H1 |]. split; [exact H2 | exact H3].
Defined.

(** The plan Silver created in the store of three plans. *)
Lemma created_plan_is_served_witness :
  exists created,
    fst (getPlan 3 (snd (createPlan
           (full_request "Silver" "Sixty days" "60 days" 8 50 ["weekly accrual"])
           fresh))) = mkResponse 200 (PlanDoc created) /\
    name created = "Silver".
Proof.
  assert (Hnew : forall p : Plan, p ∈ plans fresh ->
            toLowerCase (name p) <> toLowerCase "Silver").
  { intros p Hp.
    apply elem_of_cons in Hp as [-> | Hp]; [discriminate |].
    apply elem_of_cons in Hp as [-> | Hp]; [discriminate |].
    apply elem_of_cons in Hp as [-> | Hp]; [discriminate |].
    inversion Hp. }
  destruct (PlanAdminProps.created_plan_is_served "Silver" "Sixty days" "60 days" 8 50
              ["weekly accrual"] fresh ltac:(discriminate) ltac:(discriminate)
              ltac:(discriminate) ltac:(split; [reflexivity | discriminate]) eq_refl
              ltac:(discriminate) eq_refl Hnew)
    as (created & _ & H2 & _ & _ & H5 & _).
  exists created. split; [exact H5 | exact H2].
Defined.

(** The sweep at the end date of Ann's investment, with the save of
    the user failing. *)
Lemma failed_user_save_loses_payout_witness :
  transactions (processCompletedInvestments user_save_failing (30 * day_ms) invested)
    !! 0%nat = Some (completed investment) /\
  users (processCompletedInvestments user_save_failing (30 * day_ms) invested)
    !! 7%nat = Some ann_invested.
Proof.
  assert (Hothers : forall (j : nat) (t : Transaction), j <> 0%nat ->
            transactions invested !! j = Some t ->
            is_active_investment t = true ->
            o_id (Store.user t) = o_id (Store.user investment) ->
            isInvestmentDue (endDate (planData t)) (30 * day_ms) = false).
  { intros j t Hne Hl. destruct j as [| j]; [now destruct Hne | discriminate Hl]. }
  destruct (SweepOutcome.failed_user_save_loses_payout user_save_failing (30 * day_ms)
              invested 0 investment ann_invested eq_refl eq_refl eq_refl eq_refl
              eq_refl eq_refl eq_refl eq_refl eq_refl Hothers)
    as (H1 & H2 & _).
  split; [exact H1 | exact H2].
Defined.

End FurtherScenarios.
